(** * GoldAppleParser: a shallow embedding of [gold_apple_parser.py]

    The development follows the Python source top-down:
    - [Py]: the fragment of Python's data model the parser relies on
      (values produced by [response.json()], truthiness, subscripting,
      [dict.get], iteration, [str.replace], exceptions);
    - [Normalizer]: the dict literal built for every product
      (lines 77-85 of the source);
    - [Crawler]: [fetch_page] and the [while True] loop of [parse_category];
    - [Coordinator]: [run], with [asyncio.gather] modelled by an explicit
      schedule of task resumptions. *)

From Stdlib Require Import Floats Ascii DecimalString.
From stdpp Require Import base list strings.

Open Scope string_scope.
Open Scope list_scope.
Set Warnings "-register-all".
#[local] Arguments String.append !s1 s2 : simpl nomatch.

(** ** Python values and exceptions *)

Module Py.

(** Values that [json.loads] (behind [response.json()]) can produce.
    [JNull] is Python's [None].  A [str] is kept as its UTF-8 bytes.  A
    [dict] is kept as the list of its key/value pairs in insertion order;
    the keys of a dict are distinct, and a list that repeats a key is
    read as the dict of the first pair of each key. *)
Inductive json : Type :=
| JNull
| JBool (b : bool)
| JInt (n : Z)
| JFloat (x : float)
| JStr (s : string)
| JArr (items : list json)
| JObj (fields : list (string * json)).

(** The exceptions the parser can run into while reading a payload. *)
Inductive exn : Type :=
| KeyError (key : string)
| TypeError
| AttributeError.

(** Outcome of evaluating a Python expression: a value or a raised
    exception. *)
Inductive result (A : Type) : Type :=
| Ok (a : A)
| Raise (e : exn).
Arguments Ok {A} a.
Arguments Raise {A} e.

Definition bind {A B} (m : result A) (k : A -> result B) : result B :=
  match m with
  | Ok a => k a
  | Raise e => Raise e
  end.

Notation "'let*' x ':=' m 'in' k" := (bind m (fun x => k))
  (at level 10, x name, m at level 100, k at level 200).

(** Left-to-right evaluation of a list comprehension: the first element
    that raises ends the comprehension. *)
Fixpoint map_result {A B} (f : A -> result B) (l : list A) : result (list B) :=
  match l with
  | [] => Ok []
  | a :: l' =>
      let* b := f a in
      let* bs := map_result f l' in
      Ok (b :: bs)
  end.

(** [bool(v)]: [None], [False], zero, and empty containers are falsy. *)
Definition truthy (v : json) : bool :=
  match v with
  | JNull => false
  | JBool b => b
  | JInt n => negb (n =? 0)%Z
  | JFloat x => negb (PrimFloat.eqb x 0%float)
  | JStr s => negb (String.eqb s "")
  | JArr items => match items with [] => false | _ => true end
  | JObj fields => match fields with [] => false | _ => true end
  end.

(** Lookup of a key among the pairs of a dict. *)
Fixpoint dict_lookup (key : string) (fields : list (string * json)) : option json :=
  match fields with
  | [] => None
  | (k, v) :: rest => if String.eqb k key then Some v else dict_lookup key rest
  end.

(** [v[key]] for a string key: only a dict accepts it; a list or a string
    wants an integer index and the scalars are not subscriptable. *)
Definition getitem (v : json) (key : string) : result json :=
  match v with
  | JObj fields =>
      match dict_lookup key fields with
      | Some x => Ok x
      | None => Raise (KeyError key)
      end
  | _ => Raise TypeError
  end.

(** [d.get(key, default)] on a dict [d]. *)
Definition dict_get (fields : list (string * json)) (key : string) (default : json) : json :=
  match dict_lookup key fields with
  | Some x => x
  | None => default
  end.

(** [v.get(key, default)]: the scalars, strings and lists have no [get]. *)
Definition get (v : json) (key : string) (default : json) : result json :=
  match v with
  | JObj fields => Ok (dict_get fields key default)
  | _ => Raise AttributeError
  end.

(** The characters of a string, each as a one-character string (one per
    byte here; the parser only ever looks at whether there are any). *)
Fixpoint chars (s : string) : list json :=
  match s with
  | EmptyString => []
  | String c s' => JStr (String c EmptyString) :: chars s'
  end.

(** [for x in v]: a list yields its elements, a dict its keys, a string
    its characters; nothing else is iterable. *)
Definition iter (v : json) : result (list json) :=
  match v with
  | JArr items => Ok items
  | JObj fields => Ok (map (fun kv => JStr (fst kv)) fields)
  | JStr s => Ok (chars s)
  | _ => Raise TypeError
  end.

(** *** [str.replace] *)

(** [ahead old new skip s] scans [s] from the left.  [skip] counts the
    characters of the occurrence of [old] found last that are still to be
    dropped, so occurrences are taken leftmost first and do not overlap.
    On UTF-8 bytes this finds the occurrences that Python finds on code
    points, an encoded character never starting inside another. *)
Fixpoint ahead (old new : string) (skip : nat) (s : string) : string :=
  match s with
  | EmptyString => EmptyString
  | String c s' =>
      match skip with
      | S k => ahead old new k s'
      | O =>
          if String.prefix old s
          then new +:+ ahead old new (String.length old - 1) s'
          else String c (ahead old new 0 s')
      end
  end.

(** With an empty [old], Python puts [new] before every character and at
    the end. *)
Fixpoint around (new s : string) : string :=
  match s with
  | EmptyString => new
  | String c s' => new +:+ String c (around new s')
  end.

(** [s.replace(old, new)]. *)
Definition replace (s old new : string) : string :=
  match old with
  | EmptyString => around new s
  | String _ _ => ahead old new 0 s
  end.

(** [v.replace(old, new)] on an arbitrary value: only [str] has it. *)
Definition call_replace (v : json) (old new : string) : result string :=
  match v with
  | JStr s => Ok (replace s old new)
  | _ => Raise AttributeError
  end.

(** [needle in haystack] for strings. *)
Fixpoint contains (needle haystack : string) : bool :=
  String.prefix needle haystack ||
  match haystack with
  | EmptyString => false
  | String _ rest => contains needle rest
  end.

End Py.

Import Py.

(** ** The record normalizer (lines 77-85) *)

Module Normalizer.

(** The dict appended to [results] for one product (the source calls it
    [item] when writing it out; the specification calls it a Record). *)
Record item : Type := Item {
  id : json;
  name : json;
  brand : json;
  type : json;
  photos : list string;
  in_stock : json;
  price : json
}.

Definition not_specified : string := "Не указан".

Definition template : string := "${screen}.${format}".
Definition resolved : string := "fullhd.jpg".

(** [img["url"].replace("${screen}.${format}", "fullhd.jpg")]. *)
Definition resolve_image (img : json) : result string :=
  let* url := getitem img "url" in
  call_replace url template resolved.

(** [product["price"]["actual"]["amount"] if product["price"]["actual"] else None]. *)
Definition extract_price (product : json) : result json :=
  let* container := getitem product "price" in
  let* actual := getitem container "actual" in
  if truthy actual then
    let* container' := getitem product "price" in
    let* actual' := getitem container' "actual" in
    getitem actual' "amount"
  else Ok JNull.

(** The dict literal; its entries are evaluated in the order written. *)
Definition normalize (product : json) : result item :=
  let* v_id := getitem product "itemId" in
  let* v_name := getitem product "name" in
  let* v_brand := get product "brand" (JStr not_specified) in
  let* v_type := get product "productType" (JStr not_specified) in
  let* images := getitem product "imageUrls" in
  let* imgs := iter images in
  let* v_photos := map_result resolve_image imgs in
  let* v_in_stock := getitem product "inStock" in
  let* v_price := extract_price product in
  Ok (Item v_id v_name v_brand v_type v_photos v_in_stock v_price).

End Normalizer.

Import Normalizer.

(** ** The page fetcher and the category crawler *)

Module Crawler.

(** What one [session.get] can come back with: the call raises (connection
    refused, proxy unreachable, timeout), or a response arrives with a
    status and a body; [body = None] is a body on which [response.json()]
    raises. *)
Inductive response : Type :=
| TransportError
| Http (status : Z) (body : option json).

(** The catalog API seen from the parser: the answer to the request for a
    category, a page number and a proxy.  A crawl asks for each of its
    pages once, so a function of the request says all a crawl can see. *)
Definition network : Type := string -> nat -> string -> response.

(** What a run does to the outside world, in order. *)
Inductive event : Type :=
| LogPage (category_id : string) (page_number : nat) (proxy : string)
| Get (category_id : string) (page_number : nat) (proxy : string)
| LogRequestError (proxy : string)
| LogNotEnoughProxies
| OpenWrite
| WriteLine (line : item)
| LogSaved.

(** The requests among the events. *)
Definition requests (evs : list event) : list (string * nat * string) :=
  omap (fun ev => match ev with
                  | Get c n p => Some (c, n, p)
                  | _ => None
                  end) evs.

(** The page announcements among the events: every iteration of a crawl
    starts with one. *)
Definition announced (evs : list event) : list (string * nat * string) :=
  omap (fun ev => match ev with
                  | LogPage c n p => Some (c, n, p)
                  | _ => None
                  end) evs.

(** The events that touch the output file. *)
Definition touches_file (ev : event) : bool :=
  match ev with
  | OpenWrite | WriteLine _ => true
  | _ => false
  end.

(** The answers that make [fetch_page] give up. *)
Definition fetch_failure (r : response) : bool :=
  match r with
  | TransportError => true
  | Http status body =>
      negb (status =? 200)%Z || match body with Some _ => false | None => true end
  end.

Section WithNetwork.

Variable net : network.

(** [fetch_page]: the parsed body on status 200, [None] otherwise; an
    exception is printed and swallowed. *)
Definition fetch_page (category_id : string) (page_number : nat) (proxy : string)
  : json * list event :=
  match net category_id page_number proxy with
  | Http status body =>
      if (status =? 200)%Z then
        match body with
        | Some data => (data, [Get category_id page_number proxy])
        | None => (JNull, [Get category_id page_number proxy; LogRequestError proxy])
        end
      else (JNull, [Get category_id page_number proxy])
  | TransportError =>
      (JNull, [Get category_id page_number proxy; LogRequestError proxy])
  end.

(** Where a crawl stands: still in the loop, about to request
    [page_number] with [results] collected so far; returned; or left by
    an exception. *)
Inductive status : Type :=
| Running (page_number : nat) (results : list item)
| Returned (results : list item)
| Raised (e : exn).

(** [data["data"]["products"]]. *)
Definition products_of (data : json) : result json :=
  let* inner := getitem data "data" in
  getitem inner "products".

(** The [for product in ...] loop: one [results.append] per product. *)
Fixpoint append_products (results : list item) (products : list json)
  : result (list item) :=
  match products with
  | [] => Ok results
  | product :: rest =>
      let* r := normalize product in
      append_products (results ++ [r]) rest
  end.

(** One pass through the body of [while True]. *)
Definition loop_body (category_id proxy : string) (page_number : nat)
    (results : list item) : status * list event :=
  let '(data, evs) := fetch_page category_id page_number proxy in
  let st :=
    if negb (truthy data) then Returned results
    else
      match products_of data with
      | Raise e => Raised e
      | Ok products =>
          if negb (truthy products) then Returned results
          else
            match (let* products' := products_of data in
                   let* ps := iter products' in
                   append_products results ps) with
            | Ok results' => Running (S page_number) results'
            | Raise e => Raised e
            end
      end in
  (st, LogPage category_id page_number proxy :: evs).

(** The loop, unrolled at most [fuel] times from a given page and list of
    results.  [Running] in the answer means it is still looping. *)
Fixpoint while (fuel : nat) (category_id proxy : string) (page_number : nat)
    (results : list item) : status * list event :=
  match fuel with
  | O => (Running page_number results, [])
  | S fuel' =>
      let '(st, evs) := loop_body category_id proxy page_number results in
      match st with
      | Running page_number' results' =>
          let '(st', evs') := while fuel' category_id proxy page_number' results' in
          (st', evs ++ evs')
      | _ => (st, evs)
      end
  end.

(** [parse_category], observed after at most [fuel] iterations. *)
Definition parse_category (fuel : nat) (category_id proxy : string)
  : status * list event :=
  while fuel category_id proxy 1 [].


End WithNetwork.

End Crawler.

Import Crawler.

(** ** The coordinator: [run] *)

Module Coordinator.

(** A coroutine handed to [asyncio.gather]. *)
Record task : Type := Task {
  category_id : string;
  proxy : string;
  state : status
}.

(** The list [tasks] built by the [for ... in zip(category_ids, proxies)]
    loop; [zip] stops at the shorter list. *)
Definition make_tasks (category_ids proxies : list string) : list task :=
  map (fun cp => Task cp.1 cp.2 (Running 1 [])) (zip category_ids proxies).

(** The category and the proxy each task was created with. *)
Definition ids (tasks : list task) : list (string * string) :=
  map (fun t => (category_id t, proxy t)) tasks.

(** The results of all tasks, in the order of the tasks, once every one of
    them has returned. *)
Definition collect (tasks : list task) : option (list (list item)) :=
  mapM (fun t => match state t with
                 | Returned results => Some results
                 | _ => None
                 end) tasks.

(** What awaiting [asyncio.gather] comes to. *)
Inductive gathered : Type :=
| AllReturned (all_results : list (list item))
| Propagated (e : exn)
| Pending.

Section WithNetwork.

Variable net : network.

(** [asyncio.gather] over the list [tasks].  The event loop resumes one
    task at a time; [schedule] lists the positions of the tasks in the
    order in which their page requests complete, and a resumed task runs
    one iteration of its loop, whose events are recorded together at that
    point.  An entry naming a task that has returned, or no task, resumes
    nothing.  The first exception is propagated at once (there is no
    [return_exceptions]) and ends [run]; the results come in the order of
    [tasks], not in the order in which the tasks finish.  [Pending] is a
    [gather] that the schedule has not brought to an end. *)
Fixpoint gather (tasks : list task) (schedule : list nat)
  : gathered * list event :=
  match collect tasks with
  | Some all_results => (AllReturned all_results, [])
  | None =>
      match schedule with
      | [] => (Pending, [])
      | i :: schedule' =>
          match tasks !! i with
          | Some (Task c p (Running page_number results)) =>
              let '(st, evs) := loop_body net c p page_number results in
              match st with
              | Raised e => (Propagated e, evs)
              | _ =>
                  let '(g, evs') := gather (<[i := Task c p st]> tasks) schedule' in
                  (g, evs ++ evs')
              end
          | _ => gather tasks schedule'
          end
      end
  end.

(** The output file: [None] while it does not exist, else its lines; a
    line stands for [json.dumps(item, ensure_ascii=False) + "\n"]. *)
Definition file : Type := option (list item).

(** [open(self.output_file, "w")]: creates or truncates. *)
Definition open_w (f : file) : list item := [].

(** The two nested [for] loops around [file.write]. *)
Definition write_category (lines : list item) (category_results : list item)
  : list item :=
  foldl (fun ls it => ls ++ [it]) lines category_results.

Definition write_all (lines : list item) (all_results : list (list item))
  : list item :=
  foldl write_category lines all_results.

(** How [run] ends. *)
Inductive outcome : Type :=
| NotEnoughProxies
| Saved
| Failed (e : exn)
| Unfinished.

(** [run], given the lines of the two input files, a schedule for the
    event loop and the output file as it is before the run. *)
Definition run (category_ids proxies : list string) (schedule : list nat)
    (output : file) : outcome * list event * file :=
  if (length proxies <? length category_ids)%nat then
    (NotEnoughProxies, [LogNotEnoughProxies], output)
  else
    match gather (make_tasks category_ids proxies) schedule with
    | (AllReturned all_results, evs) =>
        let lines := write_all (open_w output) all_results in
        (Saved, evs ++ OpenWrite :: map WriteLine lines ++ [LogSaved], Some lines)
    | (Propagated e, evs) => (Failed e, evs, output)
    | (Pending, evs) => (Unfinished, evs, output)
    end.

(** A task whose state a crawl from page 1 gets to. *)
Definition reachable (t : task) : Prop :=
  exists k evs, parse_category net k (category_id t) (proxy t) = (state t, evs).


(** A pair of a category and a proxy whose crawl returns [results]. *)
Definition crawl_returns (cp : string * string) (results : list item) : Prop :=
  exists k evs, parse_category net k cp.1 cp.2 = (Returned results, evs).

End WithNetwork.

End Coordinator.

Import Coordinator.

(** ** Shapes of payloads used in the statements *)

Module Shapes.

(** The dict [fields] with [key] taken out. *)
Fixpoint without (key : string) (fields : list (string * json))
  : list (string * json) :=
  match fields with
  | [] => []
  | (k, v) :: rest =>
      if String.eqb k key then without key rest else (k, v) :: without key rest
  end.

(** The two placeholders of an image URL template. *)
Definition screen_placeholder : string := "${screen}".
Definition format_placeholder : string := "${format}".

Definition has_placeholder (url : string) : bool :=
  contains screen_placeholder url || contains format_placeholder url.


(** [sep.join(segments)]. *)
Fixpoint join (sep : string) (segments : list string) : string :=
  match segments with
  | [] => ""
  | [s] => s
  | s :: rest => s +:+ sep +:+ join sep rest
  end.

(** The fields the dict literal reads with a subscript. *)
Definition required_fields : list string :=
  ["itemId"; "name"; "imageUrls"; "inStock"; "price"].

End Shapes.

Import Shapes.

(** ** A small catalog to run the parser on *)

Module Demo.

(** The item of the specification's scenario, and what it becomes. *)
Definition shoe : json :=
  JObj [("itemId", JStr "x1"); ("name", JStr "Shoe"); ("inStock", JBool true);
        ("price", JObj [("actual", JObj [("amount", JInt 100)])]);
        ("imageUrls", JArr [JObj [("url", JStr "http://img/${screen}.${format}")]])].

Definition shoe_item : item :=
  Item (JStr "x1") (JStr "Shoe") (JStr "Не указан") (JStr "Не указан")
    ["http://img/fullhd.jpg"] (JBool true) (JInt 100).

(** An item with a brand and a type, out of stock and without a price. *)
Definition hat : json :=
  JObj [("itemId", JStr "x2"); ("name", JStr "Hat"); ("brand", JStr "Acme");
        ("productType", JStr "Headwear"); ("imageUrls", JArr []);
        ("inStock", JBool false); ("price", JObj [("actual", JNull)])].

Definition hat_item : item :=
  Item (JStr "x2") (JStr "Hat") (JStr "Acme") (JStr "Headwear") []
    (JBool false) JNull.

(** The shoe again, its name gone. *)
Definition nameless : json :=
  JObj [("itemId", JStr "x1"); ("inStock", JBool true);
        ("price", JObj [("actual", JObj [("amount", JInt 100)])]);
        ("imageUrls", JArr [JObj [("url", JStr "http://img/${screen}.${format}")]])].

(** A well-formed answer of the catalog. *)
Definition catalog_page (products : list json) : response :=
  Http 200 (Some (JObj [("data", JObj [("products", JArr products)])])).

(** Category A has one page with the shoe.  Category B has a first page
    with the shoe, the nameless item and the hat.  Category C has the hat
    on page 1, the shoe on page 2 and answers 500 from page 3 on.  No
    other category can be reached. *)
Definition demo_net : network :=
  fun category_id page_number proxy =>
    if String.eqb category_id "A" then
      match page_number with
      | 1 => catalog_page [shoe]
      | _ => catalog_page []
      end
    else if String.eqb category_id "B" then
      match page_number with
      | 1 => catalog_page [shoe; nameless; hat]
      | _ => catalog_page []
      end
    else if String.eqb category_id "C" then
      match page_number with
      | 1 => catalog_page [hat]
      | 2 => catalog_page [shoe]
      | _ => Http 500 None
      end
    else TransportError.

End Demo.

Import Demo.

(** ** End of data *)

Module Pagination.

(** The answers on which the test of line 74 leaves the loop: a failed
    fetch, a body that is falsy, or a body whose product list is falsy. *)
Definition last_page (r : response) : bool :=
  match r with
  | TransportError => true
  | Http status body =>
      if (status =? 200)%Z then
        match body with
        | Some data =>
            negb (truthy data) ||
            match products_of data with
            | Ok products => negb (truthy products)
            | Raise _ => false
            end
        | None => true
        end
      else true
  end.

(** A page of the catalog that carries the products [ps]. *)
Definition carries (r : response) (ps : list json) : Prop :=
  exists data, r = Http 200 (Some data) /\ products_of data = Ok (JArr ps).

End Pagination.

Import Pagination.

(** ** A catalog that misbehaves *)

Module Oddities.

(** Category E answers 200 with a body that has no product list.
    Category N answers 200 with the body [null].  Category D has the
    shoe on page 1 and on page 2, and an empty list on page 3. *)
Definition odd_net : network :=
  fun category_id page_number proxy =>
    if String.eqb category_id "E" then
      Http 200 (Some (JObj [("error", JStr "blocked")]))
    else if String.eqb category_id "N" then
      Http 200 (Some JNull)
    else if String.eqb category_id "D" then
      match page_number with
      | 1 | 2 => catalog_page [shoe]
      | _ => catalog_page []
      end
    else TransportError.

End Oddities.

Import Oddities.

(** ** The template, taken apart *)

Module TemplateParts.

(** What follows the [$] of the template. *)
Definition template_tail : string := "{screen}.${format}".

End TemplateParts.

Import TemplateParts.

(** ** Reading the input files (lines 25-32 and 94-95) *)

Module Files.

(** The line boundaries of [str.splitlines], as they stand in UTF-8. *)
Definition LF : ascii := "010".
Definition VT : ascii := "011".
Definition FF : ascii := "012".
Definition CR : ascii := "013".
Definition FS : ascii := "028".
Definition GS : ascii := "029".
Definition RS : ascii := "030".

(** The characters that are a line boundary by themselves, [CR] apart. *)
Definition one_byte_boundary (c : ascii) : bool :=
  Ascii.eqb c LF || Ascii.eqb c VT || Ascii.eqb c FF ||
  Ascii.eqb c FS || Ascii.eqb c GS || Ascii.eqb c RS.

(** The number of bytes of the line boundary that [s] starts with, 0 when
    it starts with none: a carriage return with a line feed behind it
    counts as one boundary, and the code points U+0085, U+2028 and U+2029
    are the byte sequences C2 85, E2 80 A8 and E2 80 A9. *)
Definition boundary_length (s : string) : nat :=
  match s with
  | EmptyString => 0
  | String c rest =>
      if Ascii.eqb c CR then
        match rest with
        | String d _ => if Ascii.eqb d LF then 2 else 1
        | EmptyString => 1
        end
      else if one_byte_boundary c then 1
      else if Ascii.eqb c "194" then
        match rest with
        | String d _ => if Ascii.eqb d "133" then 2 else 0
        | EmptyString => 0
        end
      else if Ascii.eqb c "226" then
        match rest with
        | String d (String e _) =>
            if Ascii.eqb d "128" && (Ascii.eqb e "168" || Ascii.eqb e "169")
            then 3 else 0
        | _ => 0
        end
      else 0
  end.

(** The scan of [splitlines]: [line] is the line read so far and [skip]
    the number of bytes of the boundary found last that are still to be
    passed over.  A text that ends on a boundary has no empty last
    line. *)
Fixpoint lines_from (line : string) (skip : nat) (s : string) : list string :=
  match s with
  | EmptyString => match line with EmptyString => [] | _ => [line] end
  | String c rest =>
      match skip with
      | S k => lines_from line k rest
      | O =>
          match boundary_length s with
          | O => lines_from (line +:+ String c EmptyString) 0 rest
          | S k => line :: lines_from EmptyString k rest
          end
      end
  end.

(** [s.splitlines()]. *)
Definition splitlines (s : string) : list string := lines_from "" 0 s.

(** What [file.read()] makes of the text of a file opened with mode
    ["r"]: with universal newlines, [\r\n] and [\r] come out as [\n]. *)
Fixpoint universal_newlines (s : string) : string :=
  match s with
  | EmptyString => EmptyString
  | String c rest =>
      if Ascii.eqb c CR then
        String LF
          match rest with
          | String d rest' =>
              if Ascii.eqb d LF then universal_newlines rest'
              else universal_newlines rest
          | EmptyString => EmptyString
          end
      else String c (universal_newlines rest)
  end.

(** The parser object: what [__init__] stores. *)
Record GoldAppleParser : Type := {
  category_ids_file : string;
  output_file : string;
  proxies_file : string;
  city_id : string
}.

(** [__init__] with its default for [city_id]. *)
Definition init (category_ids_file output_file proxies_file : string)
    (city_id : option string) : GoldAppleParser :=
  {| category_ids_file := category_ids_file;
     output_file := output_file;
     proxies_file := proxies_file;
     city_id := default "0c5b2444-70a0-4932-980c-b4dc0d3f02b5" city_id |}.

(** The text files that can be opened for reading, by path, each with its
    decoded text, as it is before the translation of newlines; [None] is
    a path on which [open] raises. *)
Definition filesystem : Type := string -> option string.

(** [open(path, "r")], [read()] and [splitlines()]. *)
Definition read_lines (fs : filesystem) (path : string) : option (list string) :=
  match fs path with
  | Some text => Some (splitlines (universal_newlines text))
  | None => None
  end.

(** [load_proxies]. *)
Definition load_proxies (self : GoldAppleParser) (fs : filesystem)
  : option (list string) :=
  read_lines fs (proxies_file self).

(** Lines 94-95 of [run]: the same for the category file. *)
Definition read_category_ids (self : GoldAppleParser) (fs : filesystem)
  : option (list string) :=
  read_lines fs (category_ids_file self).

(** A string without a line boundary in it. *)
Fixpoint plain (s : string) : bool :=
  match s with
  | EmptyString => true
  | String c rest => (boundary_length s =? 0)%nat && plain rest
  end.

(** No line boundary starts in [line] when [s] comes behind it. *)
Fixpoint plain_before (line s : string) : bool :=
  match line with
  | EmptyString => true
  | String c rest =>
      (boundary_length (line +:+ s) =? 0)%nat && plain_before rest s
  end.

(** A text that does nothing to the lookahead of a boundary: the end of
    the text, or a line feed. *)
Definition closing (x : string) : Prop :=
  x = "" \/ exists rest, x = String LF rest.

(** The text of a file written line by line, every line with its own
    line ending. *)
Fixpoint written (entries : list (string * string)) : string :=
  match entries with
  | [] => ""
  | (line, ending) :: rest => line +:+ ending +:+ written rest
  end.

End Files.

Import Files.

(** ** Writing the records (line 114) *)

Module Serializer.

(** Induction on a value and the values inside it. *)
Fixpoint json_nested_ind (P : json -> Prop)
    (HNull : P JNull) (HBool : forall b, P (JBool b))
    (HInt : forall n, P (JInt n)) (HFloat : forall x, P (JFloat x))
    (HStr : forall s, P (JStr s))
    (HArr : forall items, Forall P items -> P (JArr items))
    (HObj : forall fields, Forall (fun kv => P kv.2) fields -> P (JObj fields))
    (v : json) {struct v} : P v :=
  let IH := json_nested_ind P HNull HBool HInt HFloat HStr HArr HObj in
  match v with
  | JNull => HNull
  | JBool b => HBool b
  | JInt n => HInt n
  | JFloat x => HFloat x
  | JStr s => HStr s
  | JArr items =>
      HArr items
        ((fix go (l : list json) : Forall P l :=
            match l with
            | [] => @List.Forall_nil _ _
            | x :: l' => @List.Forall_cons _ _ x l' (IH x) (go l')
            end) items)
  | JObj fields =>
      HObj fields
        ((fix go (l : list (string * json)) : Forall (fun kv => P kv.2) l :=
            match l with
            | [] => @List.Forall_nil _ _
            | kv :: l' => @List.Forall_cons _ _ kv l' (IH kv.2) (go l')
            end) fields)
  end.

(** The characters that [repr] of a finite float is made of. *)
Inductive repr_char : Type :=
| R0 | R1 | R2 | R3 | R4 | R5 | R6 | R7 | R8 | R9
| RPoint | RExponent | RPlus | RMinus.

Definition char_of_repr (r : repr_char) : ascii :=
  match r with
  | R0 => "0" | R1 => "1" | R2 => "2" | R3 => "3" | R4 => "4"
  | R5 => "5" | R6 => "6" | R7 => "7" | R8 => "8" | R9 => "9"
  | RPoint => "." | RExponent => "e" | RPlus => "+" | RMinus => "-"
  end.

Fixpoint string_of_repr (rs : list repr_char) : string :=
  match rs with
  | [] => ""
  | r :: rest => String (char_of_repr r) (string_of_repr rest)
  end.

Definition backslash : ascii := "092".
Definition quote : ascii := "034".

(** A hexadecimal digit, in lower case. *)
Definition hex_digit (n : nat) : ascii :=
  match n with
  | 0 => "0" | 1 => "1" | 2 => "2" | 3 => "3" | 4 => "4" | 5 => "5"
  | 6 => "6" | 7 => "7" | 8 => "8" | 9 => "9" | 10 => "a" | 11 => "b"
  | 12 => "c" | 13 => "d" | 14 => "e" | _ => "f"
  end.

(** What [json.dumps] with [ensure_ascii=False] writes for one character
    of a string: the backslash, the quote and the control characters are
    escaped, everything else is written as it is. *)
Definition escape (c : ascii) : string :=
  if Ascii.eqb c backslash then String backslash (String backslash "")
  else if Ascii.eqb c quote then String backslash (String quote "")
  else if Ascii.eqb c "008" then String backslash "b"
  else if Ascii.eqb c "012" then String backslash "f"
  else if Ascii.eqb c "010" then String backslash "n"
  else if Ascii.eqb c "013" then String backslash "r"
  else if Ascii.eqb c "009" then String backslash "t"
  else if (nat_of_ascii c <? 32)%nat then
    String backslash
      ("u00" +:+ String (hex_digit (nat_of_ascii c / 16))
                   (String (hex_digit (nat_of_ascii c mod 16)) ""))
  else String c "".

Fixpoint escape_all (s : string) : string :=
  match s with
  | EmptyString => ""
  | String c rest => escape c +:+ escape_all rest
  end.

(** A string between quotes. *)
Definition encode_basestring (s : string) : string :=
  String quote (escape_all s +:+ String quote "").

Section WithFloatRepr.

(** [float.__repr__] on the finite floats. *)
Variable float_repr : float -> list repr_char.

(** A float, with the three names that [allow_nan] lets through. *)
Definition floatstr (x : float) : string :=
  if negb (PrimFloat.eqb x x) then "NaN"
  else if PrimFloat.eqb x infinity then "Infinity"
  else if PrimFloat.eqb x neg_infinity then "-Infinity"
  else string_of_repr (float_repr x).

(** [json.dumps(v, ensure_ascii=False)]: the separators are [", "] and
    [": "], the keys of a dict come in the order of the dict. *)
Fixpoint dumps (v : json) : string :=
  match v with
  | JNull => "null"
  | JBool true => "true"
  | JBool false => "false"
  | JInt n => DecimalString.NilZero.string_of_int (Z.to_int n)
  | JFloat x => floatstr x
  | JStr s => encode_basestring s
  | JArr items => "[" +:+ join ", " (map dumps items) +:+ "]"
  | JObj fields =>
      "{" +:+
      join ", " (map (fun kv => encode_basestring kv.1 +:+ ": " +:+ dumps kv.2)
                   fields) +:+
      "}"
  end.

(** The dict of an item, as [parse_category] builds it. *)
Definition dict_of_item (it : item) : json :=
  JObj [("id", id it); ("name", name it); ("brand", brand it);
        ("type", type it); ("photos", JArr (map JStr (photos it)));
        ("in_stock", in_stock it); ("price", price it)].

(** The text of one [file.write]. *)
Definition line_of (it : item) : string :=
  dumps (dict_of_item it) +:+ String LF "".

(** The text of the output file after the writes, as it is handed to
    [write]: the line feed stands for the line separator that the
    platform puts in its place. *)
Fixpoint text_of (lines : list item) : string :=
  match lines with
  | [] => ""
  | it :: rest => line_of it +:+ text_of rest
  end.

End WithFloatRepr.

(** A string without control characters. *)
Fixpoint printable (s : string) : bool :=
  match s with
  | EmptyString => true
  | String c rest => (32 <=? nat_of_ascii c)%nat && printable rest
  end.

(** How often a character occurs in a string. *)
Fixpoint count_char (c : ascii) (s : string) : nat :=
  match s with
  | EmptyString => 0
  | String d rest => (if Ascii.eqb d c then 1 else 0) + count_char c rest
  end.

End Serializer.

Import Serializer.

(** ** The program as a whole (lines 89-124) *)

Module Program.

(** How a run on files ends: an input file that cannot be opened makes
    [open] raise; otherwise [run] ends in one of its ways. *)
Inductive ending : Type :=
| CannotOpen (path : string)
| Ended (out : outcome).


Section WithWorld.

Variable float_repr : float -> list repr_char.

(** The catalog API, by city. *)
Variable api : string -> network.



End WithWorld.

End Program.

Import Program.


(** * Properties *)

(** ** Strings *)

Example replace_leftmost : replace "aaa" "aa" "b" = "ba".
Proof. reflexivity. Qed.

Example replace_every : replace "a.b.c" "." "::" = "a::b::c".
Proof. reflexivity. Qed.

Example replace_empty_old : replace "abc" "" "-" = "-a-b-c-".
Proof. reflexivity. Qed.

Example replace_template_twice :
  replace "${screen}.${format}/${screen}.${format}" template resolved
  = "fullhd.jpg/fullhd.jpg".
Proof. reflexivity. Qed.


Lemma prefix_app_l (a b s : string) :
  String.prefix (a +:+ b) s = true -> String.prefix a s = true.
Proof.
  revert s. induction a as [|c a IH]; intros [|d s] H; simpl in *;
    try reflexivity; try discriminate.
  destruct (Ascii.ascii_dec c d); [now apply IH | discriminate].
Qed.

Lemma contains_app_l (a b s : string) :
  contains (a +:+ b) s = true -> contains a s = true.
Proof.
  induction s as [|d s IH]; cbn [contains]; intros H.
  - apply orb_true_iff in H as [H|H]; [|discriminate].
    apply prefix_app_l in H. now rewrite H.
  - apply orb_true_iff in H as [H|H].
    + apply prefix_app_l in H. now rewrite H.
    + rewrite (IH H). apply orb_true_r.
Qed.



(** Without an occurrence at the head, the head is kept. *)
Lemma ahead_miss (old new : string) (c : ascii) (s : string) :
  String.prefix old (String c s) = false ->
  ahead old new 0 (String c s) = String c (ahead old new 0 s).
Proof. intros H. cbn [ahead]. now rewrite H. Qed.

(** A string in which [old] does not occur is left as it is. *)
Lemma ahead_absent (old new s : string) :
  contains old s = false -> ahead old new 0 s = s.
Proof.
  induction s as [|c s IH]; intros H.
  - reflexivity.
  - cbn [contains] in H. apply orb_false_iff in H as [Hp Hc].
    rewrite ahead_miss by exact Hp. now rewrite IH.
Qed.

Lemma replace_absent (s old new : string) :
  old <> "" -> contains old s = false -> replace s old new = s.
Proof.
  intros Hne H. destruct old as [|c old']; [congruence|].
  unfold replace. now apply ahead_absent.
Qed.






Lemma replace_template (s : string) :
  replace s template resolved = ahead template resolved 0 s.
Proof. reflexivity. Qed.



(** ** The normalizer *)

Lemma bind_Ok {A B} (m : result A) (k : A -> result B) (b : B) :
  bind m k = Ok b -> exists a, m = Ok a /\ k a = Ok b.
Proof. destruct m as [a|e]; simpl; [eauto | discriminate]. Qed.

(** Inversion of one [let*] in a hypothesis. *)
Tactic Notation "bind_inv" hyp(H) "as" ident(a) ident(E) :=
  apply bind_Ok in H as (a & E & H).

Lemma map_result_Forall2 {A B} (f : A -> result B) (l : list A) (bs : list B) :
  map_result f l = Ok bs -> Forall2 (fun a b => f a = Ok b) l bs.
Proof.
  revert bs. induction l as [|a l IH]; intros bs H; simpl in H.
  - injection H as <-. constructor.
  - bind_inv H as b Eb. bind_inv H as bs' Ebs. injection H as <-.
    constructor; auto.
Qed.

Lemma lookup_without (key k : string) (fields : list (string * json)) :
  dict_lookup k (without key fields)
  = if String.eqb k key then None else dict_lookup k fields.
Proof.
  induction fields as [|[k' v] rest IH]; simpl.
  - now destruct (String.eqb k key).
  - destruct (String.eqb k' key) eqn:Ek'; simpl.
    + rewrite IH. destruct (String.eqb k key) eqn:Ek; [reflexivity|].
      destruct (String.eqb k' k) eqn:Ekk; [|reflexivity].
      apply String.eqb_eq in Ek', Ekk. subst.
      now rewrite String.eqb_refl in Ek.
    + destruct (String.eqb k' k) eqn:Ekk.
      * apply String.eqb_eq in Ekk. subst. now rewrite Ek'.
      * exact IH.
Qed.

(** What a successful normalization tells about the product. *)
Lemma normalize_inv (product : json) (r : item) :
  normalize product = Ok r ->
  exists fields images imgs,
    product = JObj fields /\
    dict_lookup "itemId" fields = Some (id r) /\
    dict_lookup "name" fields = Some (name r) /\
    brand r = dict_get fields "brand" (JStr not_specified) /\
    type r = dict_get fields "productType" (JStr not_specified) /\
    dict_lookup "imageUrls" fields = Some images /\
    iter images = Ok imgs /\
    map_result resolve_image imgs = Ok (photos r) /\
    dict_lookup "inStock" fields = Some (in_stock r) /\
    extract_price product = Ok (price r).
Proof.
  unfold normalize. intros H.
  destruct product as [| | | | | |fields]; try discriminate.
  bind_inv H as v_id E_id. bind_inv H as v_name E_name.
  bind_inv H as v_brand E_brand. bind_inv H as v_type E_type.
  bind_inv H as images E_images. bind_inv H as imgs E_imgs.
  bind_inv H as v_photos E_photos. bind_inv H as v_in_stock E_in_stock.
  bind_inv H as v_price E_price.
  injection H as <-. cbn [id name brand type photos in_stock price].
  unfold getitem in E_id, E_name, E_images, E_in_stock.
  simpl in E_brand, E_type. injection E_brand as <-. injection E_type as <-.
  destruct (dict_lookup "itemId" fields) as [x_id|] eqn:L_id; [|discriminate].
  destruct (dict_lookup "name" fields) as [x_name|] eqn:L_name; [|discriminate].
  destruct (dict_lookup "imageUrls" fields) as [x_images|] eqn:L_images;
    [|discriminate].
  destruct (dict_lookup "inStock" fields) as [x_in_stock|] eqn:L_in_stock;
    [|discriminate].
  injection E_id as <-. injection E_name as <-.
  injection E_images as <-. injection E_in_stock as <-.
  exists fields, x_images, imgs. repeat split; auto.
Qed.

Example normalize_shoe : normalize shoe = Ok shoe_item.
Proof. reflexivity. Qed.

(** C7. An image URL without placeholders goes through the normalizer's
    substitution unchanged: for an image entry whose ["url"] holds neither
    [${screen}] nor [${format}], the resolved photo is that very string. *)
Theorem resolve_image_noop (img : json) (url : string) :
  getitem img "url" = Ok (JStr url) ->
  has_placeholder url = false ->
  resolve_image img = Ok url.
Proof.
  intros Hurl Hfree. unfold resolve_image. rewrite Hurl.
  cbn [bind call_replace]. f_equal. apply replace_absent; [discriminate|].
  apply not_true_is_false. intros C.
  apply (contains_app_l screen_placeholder) in C.
  unfold has_placeholder in Hfree. apply orb_false_iff in Hfree as [Hs _].
  congruence.
Qed.

Lemma resolve_image_noop_witness :
  resolve_image (JObj [("url", JStr "http://img/fullhd.jpg")])
  = Ok "http://img/fullhd.jpg".
Proof.
  apply (resolve_image_noop (JObj [("url", JStr "http://img/fullhd.jpg")])
           "http://img/fullhd.jpg"); reflexivity.
Defined.





(** The conditional expression of line 84, once the container and its
    ["actual"] field are known. *)
Lemma extract_price_eq (product container actual : json) :
  getitem product "price" = Ok container ->
  getitem container "actual" = Ok actual ->
  extract_price product
  = if truthy actual then getitem actual "amount" else Ok JNull.
Proof.
  intros Hc Ha. unfold extract_price. rewrite Hc. cbn [bind]. rewrite Ha.
  cbn [bind]. reflexivity.
Qed.

(** The test of line 84 is Python's truth test: a falsy ["actual"] of any
    kind gives no price. *)
Lemma price_of_falsy_actual (product : json) (r : item) (container actual : json) :
  normalize product = Ok r ->
  getitem product "price" = Ok container ->
  getitem container "actual" = Ok actual ->
  truthy actual = false ->
  price r = JNull.
Proof.
  intros Hn Hc Ha Hf.
  apply normalize_inv in Hn as (fields & images & imgs & -> & H).
  destruct H as (_ & _ & _ & _ & _ & _ & _ & _ & Hp).
  rewrite (extract_price_eq _ _ _ Hc Ha), Hf in Hp. congruence.
Qed.

(** C6. For an item with a price container, the price of the record is
    null, and so not zero, when ["actual"] is null, and it is the nested
    amount when ["actual"] holds one. *)
Theorem price_follows_actual (product : json) (r : item) (container actual : json) :
  normalize product = Ok r ->
  getitem product "price" = Ok container ->
  getitem container "actual" = Ok actual ->
  (actual = JNull -> price r = JNull /\ price r <> JInt 0) /\
  (forall amount, getitem actual "amount" = Ok amount -> price r = amount).
Proof.
  intros Hn Hc Ha. split.
  - intros ->.
    rewrite (price_of_falsy_actual _ _ _ _ Hn Hc Ha eq_refl).
    split; [reflexivity | discriminate].
  - intros amount Hamount.
    apply normalize_inv in Hn as (fields & images & imgs & -> & H).
    destruct H as (_ & _ & _ & _ & _ & _ & _ & _ & Hp).
    rewrite (extract_price_eq _ _ _ Hc Ha) in Hp.
    destruct actual as [| | | | | |afields]; try discriminate.
    destruct afields as [|kv afields]; [discriminate|].
    cbn [truthy] in Hp. congruence.
Qed.

Lemma price_follows_actual_witness :
  (JObj [("amount", JInt 100)] = JNull ->
   price shoe_item = JNull /\ price shoe_item <> JInt 0) /\
  (forall amount,
     getitem (JObj [("amount", JInt 100)]) "amount" = Ok amount ->
     price shoe_item = amount).
Proof.
  apply (price_follows_actual shoe shoe_item
           (JObj [("actual", JObj [("amount", JInt 100)])])
           (JObj [("amount", JInt 100)])); reflexivity.
Defined.

(** A product without a price to show, as the API sends it: ["actual"] is
    null. *)
Example price_null :
  exists r,
    normalize
      (JObj [("itemId", JStr "x2"); ("name", JStr "Hat"); ("imageUrls", JArr []);
             ("inStock", JBool false); ("price", JObj [("actual", JNull)])])
    = Ok r /\ price r = JNull.
Proof. eexists. split; reflexivity. Qed.

(** C8. The two [get] calls never raise, and an absent ["brand"] or
    ["productType"] comes out as the fixed string ["Не указан"] ("not
    specified") while a present one is passed through: whatever the other
    fields make of the product, taking the two fields out changes nothing
    but the brand and the type of the record, which become that string. *)
Theorem brand_and_type_default (fields : list (string * json)) :
  let bare := without "brand" (without "productType" fields) in
  match normalize (JObj fields) with
  | Ok r =>
      brand r = match dict_lookup "brand" fields with
                | Some b => b
                | None => JStr "Не указан"
                end /\
      type r = match dict_lookup "productType" fields with
               | Some t => t
               | None => JStr "Не указан"
               end /\
      normalize (JObj bare)
      = Ok (Item (id r) (name r) (JStr "Не указан") (JStr "Не указан")
              (photos r) (in_stock r) (price r))
  | Raise e => normalize (JObj bare) = Raise e
  end.
Proof.
  intros bare.
  assert (Hlook : forall k, k <> "brand" -> k <> "productType" ->
                            dict_lookup k bare = dict_lookup k fields).
  { intros k Hb Ht. unfold bare. rewrite !lookup_without.
    apply String.eqb_neq in Hb, Ht. now rewrite Hb, Ht. }
  assert (Hbrand : dict_lookup "brand" bare = None).
  { unfold bare. now rewrite lookup_without. }
  assert (Htype : dict_lookup "productType" bare = None).
  { unfold bare. now rewrite !lookup_without. }
  unfold normalize, extract_price, get, getitem, dict_get.
  rewrite Hbrand, Htype, !Hlook by discriminate. clearbody bare.
  destruct (dict_lookup "itemId" fields); [|reflexivity].
  destruct (dict_lookup "name" fields); [|reflexivity].
  cbn [bind].
  destruct (dict_lookup "imageUrls" fields) as [images|]; [|reflexivity].
  cbn [bind].
  destruct (iter images) as [imgs|]; [|reflexivity]. cbn [bind].
  destruct (map_result resolve_image imgs); [|reflexivity]. cbn [bind].
  destruct (dict_lookup "inStock" fields); [|reflexivity]. cbn [bind].
  destruct (dict_lookup "price" fields) as [container|]; [|reflexivity].
  cbn [bind].
  destruct (match container with JObj _ => _ | _ => _ end) as [actual|];
    [|reflexivity].
  cbn [bind].
  destruct (truthy actual); cbn [bind].
  - destruct (match actual with JObj _ => _ | _ => _ end); cbn [bind];
      [|reflexivity].
    repeat split.
  - repeat split.
Qed.

(** The fields may also be there with a null in them: [get] hands over
    what it finds. *)
Example brand_null_passes :
  exists r,
    normalize
      (JObj [("itemId", JStr "x3"); ("name", JStr "Cap"); ("brand", JNull);
             ("imageUrls", JArr []); ("inStock", JBool true);
             ("price", JObj [("actual", JNull)])])
    = Ok r /\ brand r = JNull /\ type r = JStr not_specified.
Proof. eexists. repeat split. Qed.

(** ** The crawler *)

Section CrawlerFacts.

Variable net : network.

(** [fetch_page] sends exactly one request, whatever comes back. *)
Lemma fetch_page_requests (c p : string) (n : nat) :
  requests (fetch_page net c n p).2 = [(c, n, p)] /\
  announced (fetch_page net c n p).2 = [].
Proof.
  unfold fetch_page.
  destruct (net c n p) as [|status [data|]]; [now split|..];
    destruct (status =? 200)%Z; now split.
Qed.

(** A failed fetch is reported as [None]. *)
Lemma fetch_page_failure (c p : string) (n : nat) :
  fetch_failure (net c n p) = true -> (fetch_page net c n p).1 = JNull.
Proof.
  unfold fetch_page, fetch_failure.
  destruct (net c n p) as [|status [data|]]; [reflexivity|..];
    destruct (status =? 200)%Z; simpl; congruence.
Qed.

(** Each iteration announces its page and requests it once. *)
Lemma loop_body_events (c p : string) (n : nat) (results : list item) :
  requests (loop_body net c p n results).2 = [(c, n, p)] /\
  announced (loop_body net c p n results).2 = [(c, n, p)].
Proof.
  unfold loop_body.
  destruct (fetch_page_requests c p n) as [Hr Ha].
  destruct (fetch_page net c n p) as [data evs]. simpl in *.
  now rewrite Hr, Ha.
Qed.

(** The loop goes on with the next page only. *)
Lemma loop_body_next (c p : string) (n n' : nat) (results results' : list item) :
  (loop_body net c p n results).1 = Running n' results' -> n' = S n.
Proof.
  unfold loop_body. destruct (fetch_page net c n p) as [data evs]. simpl.
  destruct (truthy data); simpl; [|discriminate].
  destruct (products_of data) as [products|]; simpl; [|discriminate].
  destruct (truthy products); simpl; [|discriminate].
  destruct (let* ps := iter products in append_products results ps);
    [|discriminate].
  now injection 1.
Qed.

(** After a failed fetch the loop is left with the results as they are. *)
Lemma loop_body_failure (c p : string) (n : nat) (results : list item) :
  fetch_failure (net c n p) = true ->
  (loop_body net c p n results).1 = Returned results.
Proof.
  intros H. apply fetch_page_failure in H. unfold loop_body.
  destruct (fetch_page net c n p) as [data evs]. simpl in *. now subst.
Qed.

Lemma requests_app (evs evs' : list event) :
  requests (evs ++ evs') = requests evs ++ requests evs'.
Proof. apply omap_app. Qed.

Lemma announced_app (evs evs' : list event) :
  announced (evs ++ evs') = announced evs ++ announced evs'.
Proof. apply omap_app. Qed.

(** Unrolling [a + b] times is unrolling [a] times and then, when still
    in the loop, [b] times more. *)
Lemma while_add (a b : nat) (c p : string) (n : nat) (results : list item) :
  while net (a + b) c p n results
  = match while net a c p n results with
    | (Running n' results', evs) =>
        let '(st, evs') := while net b c p n' results' in (st, evs ++ evs')
    | other => other
    end.
Proof.
  revert n results. induction a as [|a IH]; intros n results.
  - simpl. now destruct (while net b c p n results).
  - simpl. destruct (loop_body net c p n results) as [[n' results'| |] evs];
      [|reflexivity..].
    rewrite IH.
    destruct (while net a c p n' results') as [[n'' results''| |] evs'];
      [|reflexivity..].
    destruct (while net b c p n'' results'') as [st evs''].
    now rewrite app_assoc.
Qed.

(** One more unrolling, seen from the end. *)
Lemma while_S_end (a : nat) (c p : string) (n n' : nat)
    (results results' : list item) (evs : list event) :
  while net a c p n results = (Running n' results', evs) ->
  while net (S a) c p n results
  = match loop_body net c p n' results' with
    | (st, evs') => (st, evs ++ evs')
    end.
Proof.
  intros H. replace (S a) with (a + 1) by lia. rewrite while_add, H.
  simpl. destruct (loop_body net c p n' results') as [[n'' results''| |] evs'];
    [|reflexivity..].
  now rewrite app_nil_r.
Qed.

(** Once the loop is left, more fuel changes nothing. *)
Lemma while_stable (a b : nat) (c p : string) (n : nat) (results : list item)
    (st : status) (evs : list event) :
  while net a c p n results = (st, evs) ->
  (forall n' results', st <> Running n' results') ->
  while net (a + b) c p n results = (st, evs).
Proof.
  intros H Hst. rewrite while_add, H.
  destruct st as [n' results'| |]; [|reflexivity..].
  now destruct (Hst n' results').
Qed.

(** A crawl cannot both return and raise. *)
Lemma returned_not_raised (a b : nat) (c p : string) (results : list item)
    (e : exn) (evs evs' : list event) :
  parse_category net a c p = (Returned results, evs) ->
  parse_category net b c p = (Raised e, evs') ->
  False.
Proof.
  unfold parse_category. intros Ha Hb.
  destruct (Nat.le_ge_cases a b) as [Hle|Hle].
  - replace b with (a + (b - a)) in Hb by lia.
    rewrite (while_stable _ _ _ _ _ _ _ _ Ha) in Hb; [discriminate|].
    discriminate.
  - replace a with (b + (a - b)) in Ha by lia.
    rewrite (while_stable _ _ _ _ _ _ _ _ Hb) in Ha; [discriminate|].
    discriminate.
Qed.

(** What a crawl returns does not depend on the fuel. *)
Lemma returned_unique (a b : nat) (c p : string) (r r' : list item)
    (evs evs' : list event) :
  parse_category net a c p = (Returned r, evs) ->
  parse_category net b c p = (Returned r', evs') ->
  r = r' /\ evs = evs'.
Proof.
  unfold parse_category. intros Ha Hb.
  destruct (Nat.le_ge_cases a b) as [Hle|Hle].
  - replace b with (a + (b - a)) in Hb by lia.
    rewrite (while_stable _ _ _ _ _ _ _ _ Ha) in Hb by discriminate.
    now injection Hb as <- <-.
  - replace a with (b + (a - b)) in Ha by lia.
    rewrite (while_stable _ _ _ _ _ _ _ _ Hb) in Ha by discriminate.
    now injection Ha as <- <-.
Qed.

(** While the loop runs, the pages are requested in increasing order, each
    once, with one announcement each. *)
Lemma while_running (fuel : nat) (c p : string) (n n' : nat)
    (results results' : list item) (evs : list event) :
  while net fuel c p n results = (Running n' results', evs) ->
  n' = n + fuel /\
  requests evs = map (fun m => (c, m, p)) (seq n fuel) /\
  announced evs = map (fun m => (c, m, p)) (seq n fuel).
Proof.
  revert n results evs. induction fuel as [|fuel IH]; intros n results evs H.
  - simpl in H. injection H as <- <- <-. split; [lia|]. now split.
  - simpl in H.
    pose proof (loop_body_events c p n results) as [Hr Ha].
    destruct (loop_body net c p n results) as [[m results1| |] evs1] eqn:Hb;
      try discriminate.
    assert (m = S n) as ->
      by (eapply loop_body_next; rewrite Hb; reflexivity).
    simpl in Hr, Ha.
    destruct (while net fuel c p (S n) results1) as [st evs2] eqn:Hw.
    injection H as -> <-.
    apply IH in Hw as (-> & Hr2 & Ha2).
    rewrite requests_app, announced_app, Hr, Ha, Hr2, Ha2.
    split; [lia|]. now split.
Qed.

End CrawlerFacts.

(** C3. When the fetch of a page fails (the request raises, the status is
    not 200, or the body is not JSON), [fetch_page] hands back [None]
    without raising, and the crawl, which has gone through the pages before
    it, returns at once with exactly the records of those pages: every page
    up to the failed one has been requested once, none twice. *)
Theorem failed_fetch_ends_crawl (net : network) (c p : string) (k n : nat)
    (results : list item) (evs : list event) (fuel : nat) :
  parse_category net k c p = (Running n results, evs) ->
  fetch_failure (net c n p) = true ->
  (fetch_page net c n p).1 = JNull /\
  n = S k /\
  exists evs',
    parse_category net (S k + fuel) c p = (Returned results, evs') /\
    requests evs' = map (fun m => (c, m, p)) (seq 1 (S k)).
Proof.
  intros Hrun Hfail. split; [now apply fetch_page_failure|].
  unfold parse_category in *.
  pose proof (while_running _ _ _ _ _ _ _ _ _ Hrun) as (Hn & Hreq & _).
  split; [lia|].
  pose proof (while_S_end _ _ _ _ _ _ _ _ _ Hrun) as Hend.
  pose proof (loop_body_failure net c p n results Hfail) as Hbody.
  pose proof (loop_body_events net c p n results) as [Hr _].
  destruct (loop_body net c p n results) as [st evs1]. simpl in Hbody, Hr.
  subst st. exists (evs ++ evs1). split.
  - apply while_stable; [exact Hend | discriminate].
  - rewrite requests_app, Hreq, Hr, seq_S, map_app. simpl.
    now rewrite Hn.
Qed.

(** ** The coordinator *)

Section CoordinatorFacts.

Variable net : network.

Lemma write_category_app (lines category_results : list item) :
  write_category lines category_results = lines ++ category_results.
Proof.
  unfold write_category. revert lines.
  induction category_results as [|it rest IH]; intros lines; simpl.
  - now rewrite app_nil_r.
  - rewrite IH, <- app_assoc. reflexivity.
Qed.

(** The file holds the results of the categories one after the other. *)
Lemma write_all_concat (lines : list item) (all_results : list (list item)) :
  write_all lines all_results = lines ++ concat all_results.
Proof.
  unfold write_all. revert lines.
  induction all_results as [|r rest IH]; intros lines; simpl.
  - now rewrite app_nil_r.
  - rewrite IH, write_category_app, <- app_assoc. reflexivity.
Qed.

Lemma ids_make_tasks (category_ids proxies : list string) :
  ids (make_tasks category_ids proxies) = zip category_ids proxies.
Proof.
  unfold ids, make_tasks. rewrite List.map_map. simpl.
  induction (zip category_ids proxies) as [|[c p] l IH]; simpl; congruence.
Qed.

Lemma reachable_make_tasks (category_ids proxies : list string) :
  Forall (reachable net) (make_tasks category_ids proxies).
Proof.
  unfold make_tasks. apply Forall_forall. intros t Hin.
  apply list_elem_of_In, in_map_iff in Hin as ([c p] & <- & _).
  exists 0, []. reflexivity.
Qed.

(** Resuming a task leaves its category and proxy alone. *)
Lemma ids_insert (tasks : list task) (i : nat) (c p : string) (st st' : status) :
  tasks !! i = Some (Task c p st) ->
  ids (<[i := Task c p st']> tasks) = ids tasks.
Proof.
  intros Hi. unfold ids.
  change (map ?f ?l) with (f <$> l).
  rewrite list_fmap_insert. apply list_insert_id.
  rewrite list_lookup_fmap, Hi. reflexivity.
Qed.

(** One more iteration of a reachable task gives a reachable task. *)
Lemma reachable_step (c p : string) (n : nat) (results : list item)
    (st : status) (evs : list event) :
  reachable net (Task c p (Running n results)) ->
  loop_body net c p n results = (st, evs) ->
  reachable net (Task c p st).
Proof.
  intros (k & evs0 & Hk) Hbody. simpl in Hk. exists (S k), (evs0 ++ evs).
  simpl. unfold parse_category in *.
  rewrite (while_S_end _ _ _ _ _ _ _ _ _ Hk), Hbody. reflexivity.
Qed.

Lemma collect_Some (tasks : list task) (all_results : list (list item)) :
  collect tasks = Some all_results <->
  Forall2 (fun t r => state t = Returned r) tasks all_results.
Proof.
  unfold collect. rewrite mapM_Some. split; intros H.
  - eapply Forall2_impl; [exact H|]. intros t r Ht. simpl in Ht.
    destruct (state t); congruence.
  - eapply Forall2_impl; [exact H|]. intros t r Ht. simpl. now rewrite Ht.
Qed.

Lemma collect_sound (tasks : list task) (all_results : list (list item)) :
  Forall (reachable net) tasks ->
  collect tasks = Some all_results ->
  Forall2 (crawl_returns net) (ids tasks) all_results.
Proof.
  intros Hreach Hc. apply collect_Some in Hc.
  induction Hc as [|t r tasks rs Ht _ IH]; simpl.
  - constructor.
  - apply Forall_cons in Hreach as [(k & evs & Hk) Hreach].
    constructor; [|now apply IH].
    exists k, evs. simpl. now rewrite <- Ht.
Qed.

(** Whatever the schedule, what [gather] returns is, task by task, what
    the crawl of that task returns on its own. *)
Lemma gather_sound (schedule : list nat) (tasks : list task)
    (all_results : list (list item)) (evs : list event) :
  Forall (reachable net) tasks ->
  gather net tasks schedule = (AllReturned all_results, evs) ->
  Forall2 (crawl_returns net) (ids tasks) all_results.
Proof.
  revert tasks evs.
  induction schedule as [|i schedule IH]; intros tasks evs Hreach H; simpl in H;
    destruct (collect tasks) as [all|] eqn:Hc.
  - injection H as <- _. now apply collect_sound.
  - discriminate.
  - injection H as <- _. now apply collect_sound.
  - destruct (tasks !! i) as [[c p [n results| |]]|] eqn:Hi;
      try (eapply IH; eassumption).
    destruct (loop_body net c p n results) as [st evs1] eqn:Hbody.
    assert (Hstep : reachable net (Task c p st)).
    { eapply reachable_step; [|exact Hbody].
      eapply Forall_lookup_1; eassumption. }
    destruct st as [n' results'|results'|e]; [| |discriminate].
    + destruct (gather net (<[i:=Task c p (Running n' results')]> tasks) schedule)
        as [g evs2] eqn:Hg.
      injection H as -> _.
      apply IH in Hg; [|now apply Forall_insert].
      now rewrite (ids_insert _ _ _ _ _ _ Hi) in Hg.
    + destruct (gather net (<[i:=Task c p (Returned results')]> tasks) schedule)
        as [g evs2] eqn:Hg.
      injection H as -> _.
      apply IH in Hg; [|now apply Forall_insert].
      now rewrite (ids_insert _ _ _ _ _ _ Hi) in Hg.
Qed.



End CoordinatorFacts.

(** ** [run] *)

Section RunFacts.

Variable net : network.


(** With enough proxies, [run] is what [gather] makes of the tasks. *)
Lemma run_enough (category_ids proxies : list string) (schedule : list nat)
    (output : file) :
  length category_ids <= length proxies ->
  run net category_ids proxies schedule output
  = match gather net (make_tasks category_ids proxies) schedule with
    | (AllReturned all_results, evs) =>
        (Saved,
         evs ++ OpenWrite :: map WriteLine (concat all_results) ++ [LogSaved],
         Some (concat all_results))
    | (Propagated e, evs) => (Failed e, evs, output)
    | (Pending, evs) => (Unfinished, evs, output)
    end.
Proof.
  intros Hlen. unfold run.
  destruct (Nat.ltb_spec (length proxies) (length category_ids)); [lia|].
  destruct (gather net (make_tasks category_ids proxies) schedule) as [[all|e|] evs];
    try reflexivity.
  unfold open_w. now rewrite write_all_concat.
Qed.

(** A run that saves has saved, category by category in the order of the
    input, what each crawl returns. *)
Lemma run_saved_inv (category_ids proxies : list string) (schedule : list nat)
    (output output' : file) (evs : list event) :
  run net category_ids proxies schedule output = (Saved, evs, output') ->
  length category_ids <= length proxies /\
  exists all_results,
    output' = Some (concat all_results) /\
    Forall2 (crawl_returns net) (zip category_ids proxies) all_results.
Proof.
  intros H.
  destruct (Nat.le_gt_cases (length category_ids) (length proxies)) as [Hlen|Hlen].
  - split; [exact Hlen|]. rewrite run_enough in H by exact Hlen.
    destruct (gather net (make_tasks category_ids proxies) schedule)
      as [[all|e|] evs0] eqn:Hg; try discriminate.
    injection H as _ <-. exists all. split; [reflexivity|].
    rewrite <- ids_make_tasks. eapply gather_sound; [|exact Hg].
    apply reachable_make_tasks.
  - unfold run in H.
    destruct (Nat.ltb_spec (length proxies) (length category_ids)); [|lia].
    discriminate.
Qed.

(** Whatever way [run] ends other than by saving, the file is as before. *)
Lemma run_not_saved (category_ids proxies : list string) (schedule : list nat)
    (output output' : file) (out : outcome) (evs : list event) :
  run net category_ids proxies schedule output = (out, evs, output') ->
  out <> Saved ->
  output' = output.
Proof.
  unfold run. intros H Hout.
  destruct (length proxies <? length category_ids)%nat.
  - now injection H as _ _ <-.
  - destruct (gather net (make_tasks category_ids proxies) schedule)
      as [[all|e|] evs0]; injection H as <- _ <-; congruence.
Qed.

(** A crawl that raises keeps every run it is part of from saving. *)
Lemma raising_crawl_fails_run (category_ids proxies : list string) (i k : nat)
    (c p : string) (e : exn) (evs : list event) :
  category_ids !! i = Some c ->
  proxies !! i = Some p ->
  parse_category net k c p = (Raised e, evs) ->
  forall schedule output out evs' output',
    run net category_ids proxies schedule output = (out, evs', output') ->
    out <> Saved /\ output' = output.
Proof.
  intros Hc Hp Hraise schedule output out evs' output' Hrun.
  assert (Hout : out <> Saved).
  { intros ->. apply run_saved_inv in Hrun as (_ & all & _ & Hall).
    assert (Hz : zip category_ids proxies !! i = Some (c, p))
      by (apply lookup_zip_with_Some; eauto).
    destruct (Forall2_lookup_l _ _ _ _ _ Hall Hz) as (r & _ & k' & evs0 & Hret).
    exact (returned_not_raised net _ _ _ _ _ _ _ _ Hret Hraise). }
  split; [exact Hout|]. eapply run_not_saved; eassumption.
Qed.

End RunFacts.

(** C2. With fewer proxies than categories [run] reports the shortage and
    returns before anything else: no request is sent and no crawl
    announces a page. *)
Theorem too_few_proxies_no_crawl (net : network)
    (category_ids proxies : list string) (schedule : list nat) (output : file) :
  length proxies < length category_ids ->
  exists evs output',
    run net category_ids proxies schedule output = (NotEnoughProxies, evs, output') /\
    requests evs = [] /\ announced evs = [].
Proof.
  intros Hlen. unfold run.
  destruct (Nat.ltb_spec (length proxies) (length category_ids)); [|lia].
  eexists _, _. split; [reflexivity|]. now split.
Qed.

(** C9. With fewer proxies than categories [run] leaves the output file as
    it is, missing or with its old lines: no event of the run opens it or
    writes to it. *)
Theorem too_few_proxies_output_untouched (net : network)
    (category_ids proxies : list string) (schedule : list nat) (output : file) :
  length proxies < length category_ids ->
  exists out evs,
    run net category_ids proxies schedule output = (out, evs, output) /\
    out = NotEnoughProxies /\
    Forall (fun ev => touches_file ev = false) evs.
Proof.
  intros Hlen. unfold run.
  destruct (Nat.ltb_spec (length proxies) (length category_ids)); [|lia].
  eexists _, _. split; [reflexivity|]. split; [reflexivity|].
  repeat constructor.
Qed.

(** C10. Without categories [run] saves at once, whatever the proxies: it
    sends no request, opens the output file for writing, which empties it,
    and writes no line. *)
Theorem no_categories_empty_output (net : network) (proxies : list string)
    (schedule : list nat) (output : file) :
  run net [] proxies schedule output = (Saved, [OpenWrite; LogSaved], Some []) /\
  requests [OpenWrite; LogSaved] = [].
Proof.
  split; [|reflexivity]. unfold run. simpl. now destruct schedule.
Qed.


(** ** Malformed items *)

Lemma append_products_app (results : list item) (before after : list json) :
  append_products results (before ++ after)
  = let* results' := append_products results before in
    append_products results' after.
Proof.
  revert results. induction before as [|b before IH]; intros results; simpl.
  - reflexivity.
  - destruct (normalize b) as [r|e]; simpl; [apply IH | reflexivity].
Qed.

Lemma append_products_Ok (results : list item) (products : list json) :
  Forall (fun b => exists r, normalize b = Ok r) products ->
  exists results', append_products results products = Ok results'.
Proof.
  intros H. revert results.
  induction H as [|b products [r Hr] _ IH]; intros results; simpl.
  - eauto.
  - rewrite Hr. simpl. apply IH.
Qed.

(** A product that lacks one of the fields read with a subscript is not
    normalized. *)
Lemma normalize_missing (product : json) (key : string) :
  key ∈ required_fields ->
  getitem product key = Raise (KeyError key) ->
  exists e, normalize product = Raise e.
Proof.
  intros Hkey Hmiss.
  destruct (normalize product) as [r|e] eqn:Hn; [|eauto]. exfalso.
  apply normalize_inv in Hn
    as (fields & images & imgs & -> & L1 & L2 & _ & _ & L3 & _ & _ & L4 & Hp).
  unfold extract_price in Hp.
  destruct (getitem (JObj fields) "price") as [container|] eqn:L5;
    [|discriminate].
  unfold getitem in Hmiss, L5. unfold required_fields in Hkey.
  repeat (apply elem_of_cons in Hkey as [->|Hkey]);
    [rewrite L1 in Hmiss|rewrite L2 in Hmiss|rewrite L3 in Hmiss
    |rewrite L4 in Hmiss| |]; try discriminate.
  - destruct (dict_lookup "price" fields); discriminate.
  - now apply elem_of_nil in Hkey.
Qed.

(** C1 (as amended). When an item on a fetched page lacks a required field
    (["itemId"], ["name"], ["imageUrls"], ["inStock"] or ["price"]), the
    normalizer raises, and nothing catches the exception: the crawl of the
    category ends by raising it, and every run with that category among
    its categories ends without saving, the output file being left as it
    was, whatever the order in which the crawls proceed. *)
Theorem malformed_item_fails_run (net : network) (c p : string) (k n : nat)
    (results : list item) (evs : list event) (data : json)
    (before after : list json) (product : json) (key : string) :
  parse_category net k c p = (Running n results, evs) ->
  net c n p = Http 200 (Some data) ->
  products_of data = Ok (JArr (before ++ product :: after)) ->
  Forall (fun b => exists r, normalize b = Ok r) before ->
  key ∈ required_fields ->
  getitem product key = Raise (KeyError key) ->
  exists e,
    normalize product = Raise e /\
    (forall fuel, exists evs',
       parse_category net (S k + fuel) c p = (Raised e, evs')) /\
    (forall category_ids proxies i schedule output out evs' output',
       category_ids !! i = Some c ->
       proxies !! i = Some p ->
       run net category_ids proxies schedule output = (out, evs', output') ->
       out <> Saved /\ output' = output).
Proof.
  intros Hrun Hnet Hproducts Hbefore Hkey Hmiss.
  destruct (normalize_missing product key Hkey Hmiss) as [e He].
  exists e. split; [exact He|].
  assert (Hbody : (loop_body net c p n results).1 = Raised e).
  { unfold loop_body, fetch_page. rewrite Hnet. simpl.
    assert (Hdata : truthy data = true).
    { unfold products_of in Hproducts.
      destruct data as [| | | | | |[|kv fields]]; try discriminate.
      reflexivity. }
    rewrite Hdata, Hproducts. simpl.
    assert (Htruthy : match before ++ product :: after with
                      | [] => false | _ => true end = true)
      by now destruct before.
    rewrite Htruthy. simpl.
    rewrite append_products_app.
    destruct (append_products_Ok results before Hbefore) as [results' ->].
    simpl. now rewrite He. }
  assert (Hraise : forall fuel, exists evs',
             parse_category net (S k + fuel) c p = (Raised e, evs')).
  { intros fuel. unfold parse_category in *.
    pose proof (while_S_end net _ _ _ _ _ _ _ _ Hrun) as Hend.
    destruct (loop_body net c p n results) as [st evs1]. simpl in Hbody.
    subst st. exists (evs ++ evs1).
    apply while_stable; [exact Hend | discriminate]. }
  split; [exact Hraise|].
  intros category_ids proxies i schedule output out evs' output' Hc Hp Hr.
  destruct (Hraise 0) as [evs0 H0].
  exact (raising_crawl_fails_run net category_ids proxies i _ c p e evs0
           Hc Hp H0 schedule output out evs' output' Hr).
Qed.

(** ** The demo catalog, crawled *)

Example crawl_A :
  parse_category demo_net 2 "A" "P1"
  = (Returned [shoe_item],
     [LogPage "A" 1 "P1"; Get "A" 1 "P1"; LogPage "A" 2 "P1"; Get "A" 2 "P1"]).
Proof. reflexivity. Qed.

Example crawl_C_two_pages :
  (parse_category demo_net 2 "C" "P3").1 = Running 3 [hat_item; shoe_item].
Proof. reflexivity. Qed.

Lemma malformed_item_fails_run_witness :
  exists e,
    normalize nameless = Raise e /\
    (forall fuel, exists evs',
       parse_category demo_net (1 + fuel) "B" "P2" = (Raised e, evs')) /\
    (forall category_ids proxies i schedule output out evs' output',
       category_ids !! i = Some "B" ->
       proxies !! i = Some "P2" ->
       run demo_net category_ids proxies schedule output = (out, evs', output') ->
       out <> Saved /\ output' = output).
Proof.
  apply (malformed_item_fails_run demo_net "B" "P2" 0 1 [] []
           (JObj [("data", JObj [("products", JArr [shoe; nameless; hat])])])
           [shoe] [hat] nameless "name").
  - reflexivity.
  - reflexivity.
  - reflexivity.
  - constructor; [|constructor]. exists shoe_item. reflexivity.
  - unfold required_fields. apply list_elem_of_further, list_elem_of_here.
  - reflexivity.
Defined.

(** C1 (counterexample). The first page of category B holds the shoe and
    then an item without a name.  The crawl raises [KeyError] and at no
    point returns anything, the shoe's record included; and a run over A
    and B, in which the crawl of A has returned its record before B is
    resumed, ends with the exception and with the output file as it was:
    the record of A is not saved. *)
Lemma malformed_item_loses_results :
  normalize shoe = Ok shoe_item /\
  getitem nameless "name" = Raise (KeyError "name") /\
  parse_category demo_net 1 "B" "P2"
  = (Raised (KeyError "name"), [LogPage "B" 1 "P2"; Get "B" 1 "P2"]) /\
  (forall fuel results evs,
     parse_category demo_net fuel "B" "P2" <> (Returned results, evs)) /\
  (parse_category demo_net 2 "A" "P1").1 = Returned [shoe_item] /\
  run demo_net ["A"; "B"] ["P1"; "P2"] [0; 0; 1] (Some [hat_item])
  = (Failed (KeyError "name"),
     [LogPage "A" 1 "P1"; Get "A" 1 "P1"; LogPage "A" 2 "P1"; Get "A" 2 "P1";
      LogPage "B" 1 "P2"; Get "B" 1 "P2"],
     Some [hat_item]).
Proof.
  repeat split.
  intros [|fuel] results evs; discriminate.
Qed.

Lemma too_few_proxies_no_crawl_witness :
  exists evs output',
    run demo_net ["A"; "B"] ["P1"] [0; 1; 0; 1] None
    = (NotEnoughProxies, evs, output') /\
    requests evs = [] /\ announced evs = [].
Proof.
  apply (too_few_proxies_no_crawl demo_net ["A"; "B"] ["P1"] [0; 1; 0; 1] None).
  simpl. lia.
Defined.

Lemma too_few_proxies_output_untouched_witness :
  exists out evs,
    run demo_net ["A"; "B"] ["P1"] [0; 1; 0; 1] (Some [hat_item])
    = (out, evs, Some [hat_item]) /\
    out = NotEnoughProxies /\
    Forall (fun ev => touches_file ev = false) evs.
Proof.
  apply (too_few_proxies_output_untouched demo_net ["A"; "B"] ["P1"]
           [0; 1; 0; 1] (Some [hat_item])).
  simpl. lia.
Defined.

Lemma failed_fetch_ends_crawl_witness :
  (fetch_page demo_net "C" 3 "P3").1 = JNull /\
  3 = 3 /\
  exists evs',
    parse_category demo_net (3 + 0) "C" "P3"
    = (Returned [hat_item; shoe_item], evs') /\
    requests evs' = map (fun m => ("C", m, "P3")) (seq 1 3).
Proof.
  apply (failed_fetch_ends_crawl demo_net "C" "P3" 2 3 [hat_item; shoe_item]
           (parse_category demo_net 2 "C" "P3").2 0).
  - reflexivity.
  - reflexivity.
Defined.


(** The same run, written out: the records of C come first, then the one
    of A, although A finishes first. *)
Example run_C_A :
  run demo_net ["C"; "A"] ["P3"; "P1"; "P9"] [1; 0; 1; 0; 1; 0] (Some [shoe_item])
  = (Saved,
     [LogPage "A" 1 "P1"; Get "A" 1 "P1"; LogPage "C" 1 "P3"; Get "C" 1 "P3";
      LogPage "A" 2 "P1"; Get "A" 2 "P1"; LogPage "C" 2 "P3"; Get "C" 2 "P3";
      LogPage "C" 3 "P3"; Get "C" 3 "P3";
      OpenWrite; WriteLine hat_item; WriteLine shoe_item; WriteLine shoe_item;
      LogSaved],
     Some [hat_item; shoe_item; shoe_item]).
Proof. reflexivity. Qed.

(** * Further properties of the crawler *)

Section Pages.

Variable net : network.

Lemma last_page_failure (r : response) :
  fetch_failure r = true -> last_page r = true.
Proof.
  destruct r as [|status [data|]]; simpl; try reflexivity.
  - rewrite orb_false_r. intros H. apply negb_true_iff in H. now rewrite H.
  - now destruct (status =? 200)%Z.
Qed.

(** The loop is left by its [break] on a last page, and only there. *)
Lemma loop_body_last_page (c p : string) (n : nat) (results : list item) :
  last_page (net c n p) = true ->
  (loop_body net c p n results).1 = Returned results.
Proof.
  unfold last_page, loop_body, fetch_page.
  destruct (net c n p) as [|status [data|]]; [reflexivity|..];
    destruct (status =? 200)%Z; try reflexivity.
  simpl. intros H.
  destruct (truthy data); simpl in *; [|reflexivity].
  destruct (products_of data) as [products|]; [|discriminate].
  now rewrite H.
Qed.

Lemma map_result_app {A B} (f : A -> result B) (l k : list A) :
  map_result f (l ++ k)
  = let* bs := map_result f l in
    let* cs := map_result f k in
    Ok (bs ++ cs).
Proof.
  induction l as [|a l IH]; simpl.
  - now destruct (map_result f k).
  - destruct (f a) as [b|e]; simpl; [|reflexivity]. rewrite IH.
    destruct (map_result f l) as [bs|e]; simpl; [|reflexivity].
    now destruct (map_result f k).
Qed.

(** The [for] loop appends the normalized products, in their order. *)
Lemma append_products_map (results : list item) (products : list json) :
  append_products results products
  = let* rs := map_result normalize products in Ok (results ++ rs).
Proof.
  revert results. induction products as [|b products IH]; intros results; simpl.
  - now rewrite app_nil_r.
  - destruct (normalize b) as [r|e]; simpl; [|reflexivity]. rewrite IH.
    destruct (map_result normalize products) as [rs|e]; simpl; [|reflexivity].
    now rewrite <- app_assoc.
Qed.

(** A body that has a product list is a non-empty dict. *)
Lemma products_of_truthy (data products : json) :
  products_of data = Ok products -> truthy data = true.
Proof.
  unfold products_of. now destruct data as [| | | | | |[|kv fields]].
Qed.

(** A page with products that all normalize moves the loop on. *)
Lemma loop_body_carries (c p : string) (n : nat) (results : list item)
    (ps : list json) (rs : list item) :
  carries (net c n p) ps ->
  ps <> [] ->
  map_result normalize ps = Ok rs ->
  (loop_body net c p n results).1 = Running (S n) (results ++ rs).
Proof.
  intros (data & Hnet & Hproducts) Hne Hrs.
  unfold loop_body, fetch_page. rewrite Hnet. simpl.
  rewrite (products_of_truthy _ _ Hproducts), Hproducts. simpl.
  destruct ps as [|b ps]; [congruence|]. cbn [negb bind iter].
  now rewrite append_products_map, Hrs.
Qed.

(** Page after page, the loop collects the records of the pages. *)
Lemma while_pages (c p : string) (pages : list (list json)) (n : nat)
    (results records : list item) :
  (forall i ps, pages !! i = Some ps ->
     ps <> [] /\ carries (net c (n + i) p) ps) ->
  map_result normalize (concat pages) = Ok records ->
  exists evs,
    while net (length pages) c p n results
    = (Running (n + length pages) (results ++ records), evs).
Proof.
  revert n results records.
  induction pages as [|ps pages IH]; intros n results records Hpages Hrecords.
  - simpl in *. injection Hrecords as <-. exists [].
    now rewrite Nat.add_0_r, app_nil_r.
  - simpl in Hrecords. rewrite map_result_app in Hrecords.
    destruct (map_result normalize ps) as [rs|] eqn:Hrs; [|discriminate].
    destruct (map_result normalize (concat pages)) as [rest|] eqn:Hrest;
      [|discriminate].
    injection Hrecords as <-.
    destruct (Hpages 0 ps eq_refl) as [Hne Hcarries].
    rewrite Nat.add_0_r in Hcarries.
    pose proof (loop_body_carries c p n results ps rs Hcarries Hne Hrs) as Hbody.
    destruct (IH (S n) (results ++ rs) rest) as [evs Hevs].
    { intros i qs Hi. replace (S n + i) with (n + S i) by lia.
      now apply Hpages. }
    { reflexivity. }
    simpl. destruct (loop_body net c p n results) as [st evs1].
    simpl in Hbody. subst st. rewrite Hevs.
    exists (evs1 ++ evs). f_equal. f_equal; [lia|]. now rewrite app_assoc.
Qed.

End Pages.

(** X1. A crawl returns the records of its pages in page order: when
    pages 1 to [length pages] of a category carry non-empty product lists
    whose products all normalize, and the next page is a last page (a
    failed fetch, a falsy body or a falsy product list), the crawl returns
    the normalized products of all the pages, one after the other, having
    requested each page up to the last one once. *)
Theorem crawl_returns_pages (net : network) (c p : string)
    (pages : list (list json)) (records : list item) (fuel : nat) :
  (forall i ps, pages !! i = Some ps ->
     ps <> [] /\ carries (net c (S i) p) ps) ->
  map_result normalize (concat pages) = Ok records ->
  last_page (net c (S (length pages)) p) = true ->
  exists evs,
    parse_category net (S (length pages) + fuel) c p = (Returned records, evs) /\
    requests evs = map (fun m => (c, m, p)) (seq 1 (S (length pages))).
Proof.
  intros Hpages Hrecords Hlast.
  destruct (while_pages net c p pages 1 [] records Hpages Hrecords) as [evs Hrun].
  simpl in Hrun.
  pose proof (while_running net _ _ _ _ _ _ _ _ Hrun) as (_ & Hreq & _).
  pose proof (while_S_end net _ _ _ _ _ _ _ _ Hrun) as Hend.
  pose proof (loop_body_last_page net c p (S (length pages)) records Hlast)
    as Hbody.
  pose proof (loop_body_events net c p (S (length pages)) records) as [Hr _].
  destruct (loop_body net c p (S (length pages)) records) as [st evs1].
  simpl in Hbody, Hr. subst st. exists (evs ++ evs1). split.
  - unfold parse_category. apply while_stable; [exact Hend | discriminate].
  - now rewrite requests_app, Hreq, Hr, seq_S, map_app.
Qed.

Lemma crawl_returns_pages_witness :
  exists evs,
    parse_category demo_net (3 + 0) "C" "P3"
    = (Returned [hat_item; shoe_item], evs) /\
    requests evs = map (fun m => ("C", m, "P3")) (seq 1 3).
Proof.
  apply (crawl_returns_pages demo_net "C" "P3" [[hat]; [shoe]]
           [hat_item; shoe_item] 0).
  - intros [|[|i]] ps H; simpl in H; try discriminate; injection H as <-;
      (split; [discriminate|]); eexists; split; reflexivity.
  - reflexivity.
  - reflexivity.
Defined.

(** X2. A page answered with status 200 and a truthy body in which
    [data["data"]["products"]] cannot be read makes the crawl raise the
    exception of that subscript ([KeyError] for a missing key, [TypeError]
    for a body that is not a dict), and no run with that category saves. *)
Theorem unexpected_body_raises (net : network) (c p : string) (k n : nat)
    (results : list item) (evs : list event) (data : json) (e : exn) :
  parse_category net k c p = (Running n results, evs) ->
  net c n p = Http 200 (Some data) ->
  truthy data = true ->
  products_of data = Raise e ->
  (forall fuel, exists evs',
     parse_category net (S k + fuel) c p = (Raised e, evs')) /\
  (forall category_ids proxies i schedule output out evs' output',
     category_ids !! i = Some c ->
     proxies !! i = Some p ->
     run net category_ids proxies schedule output = (out, evs', output') ->
     out <> Saved /\ output' = output).
Proof.
  intros Hrun Hnet Htruthy Hproducts.
  assert (Hraise : forall fuel, exists evs',
             parse_category net (S k + fuel) c p = (Raised e, evs')).
  { intros fuel. unfold parse_category in *.
    pose proof (while_S_end net _ _ _ _ _ _ _ _ Hrun) as Hend.
    assert (Hbody : (loop_body net c p n results).1 = Raised e).
    { unfold loop_body, fetch_page. rewrite Hnet. simpl.
      now rewrite Htruthy, Hproducts. }
    destruct (loop_body net c p n results) as [st evs1]. simpl in Hbody.
    subst st. exists (evs ++ evs1).
    apply while_stable; [exact Hend | discriminate]. }
  split; [exact Hraise|].
  intros category_ids proxies i schedule output out evs' output' Hc Hp Hr.
  destruct (Hraise 0) as [evs0 H0].
  exact (raising_crawl_fails_run net category_ids proxies i _ c p e evs0
           Hc Hp H0 schedule output out evs' output' Hr).
Qed.

Lemma unexpected_body_raises_witness :
  (forall fuel, exists evs',
     parse_category odd_net (1 + fuel) "E" "P1" = (Raised (KeyError "data"), evs')) /\
  (forall category_ids proxies i schedule output out evs' output',
     category_ids !! i = Some "E" ->
     proxies !! i = Some "P1" ->
     run odd_net category_ids proxies schedule output = (out, evs', output') ->
     out <> Saved /\ output' = output).
Proof.
  apply (unexpected_body_raises odd_net "E" "P1" 0 1 [] []
           (JObj [("error", JStr "blocked")]) (KeyError "data"));
    reflexivity.
Defined.

Section Growth.

Variable net : network.

Lemma append_products_extends (results results' : list item)
    (products : list json) :
  append_products results products = Ok results' ->
  results `prefix_of` results'.
Proof.
  rewrite append_products_map.
  destruct (map_result normalize products) as [rs|]; [|discriminate].
  intros [= <-]. now exists rs.
Qed.

Lemma loop_body_extends (c p : string) (n : nat) (results : list item) :
  match (loop_body net c p n results).1 with
  | Running _ results' | Returned results' => results `prefix_of` results'
  | Raised _ => True
  end.
Proof.
  unfold loop_body. destruct (fetch_page net c n p) as [data evs]. simpl.
  destruct (truthy data); simpl; [|reflexivity].
  destruct (products_of data) as [products|]; simpl; [|exact I].
  destruct (truthy products); simpl; [|reflexivity].
  destruct (iter products) as [ps|]; simpl; [|exact I].
  destruct (append_products results ps) as [results'|] eqn:Ha; [|exact I].
  now apply append_products_extends in Ha.
Qed.

Lemma while_extends (fuel : nat) (c p : string) (n : nat) (results : list item) :
  match (while net fuel c p n results).1 with
  | Running _ results' | Returned results' => results `prefix_of` results'
  | Raised _ => True
  end.
Proof.
  revert n results. induction fuel as [|fuel IH]; intros n results; simpl.
  - reflexivity.
  - pose proof (loop_body_extends c p n results) as Hb.
    destruct (loop_body net c p n results) as [[n' results'|results'|e] evs];
      simpl in *; try assumption.
    specialize (IH n' results').
    destruct (while net fuel c p n' results') as [[n'' r''|r''|e] evs'];
      simpl in *; try exact I; etrans; eassumption.
Qed.

End Growth.

(** X3. The results of a crawl only grow: what the crawl has collected
    after [k] iterations is the beginning of what it holds, or returns,
    any number of iterations later, and so are the events so far. *)
Theorem results_only_grow (net : network) (c p : string) (k m n : nat)
    (results : list item) (evs evs' : list event) (st : status) :
  parse_category net k c p = (Running n results, evs) ->
  parse_category net (k + m) c p = (st, evs') ->
  match st with
  | Running _ results' | Returned results' => results `prefix_of` results'
  | Raised _ => True
  end /\
  evs `prefix_of` evs'.
Proof.
  unfold parse_category. intros Hk Hkm. rewrite while_add, Hk in Hkm.
  pose proof (while_extends net m c p n results) as Hext.
  destruct (while net m c p n results) as [st' evs2]. simpl in Hext.
  injection Hkm as <- <-. split; [exact Hext|]. now exists evs2.
Qed.

Lemma results_only_grow_witness :
  [hat_item] `prefix_of` [hat_item; shoe_item] /\
  (parse_category demo_net 1 "C" "P3").2
    `prefix_of` (parse_category demo_net (1 + 2) "C" "P3").2.
Proof.
  apply (results_only_grow demo_net "C" "P3" 1 2 2 [hat_item]
           (parse_category demo_net 1 "C" "P3").2
           (parse_category demo_net (1 + 2) "C" "P3").2
           (Returned [hat_item; shoe_item])); reflexivity.
Defined.

Lemma while_requests (net : network) (fuel : nat) (c p : string) (n : nat)
    (results : list item) :
  exists j, j <= fuel /\
    requests (while net fuel c p n results).2
    = map (fun m => (c, m, p)) (seq n j) /\
    announced (while net fuel c p n results).2
    = map (fun m => (c, m, p)) (seq n j).
Proof.
  revert n results. induction fuel as [|fuel IH]; intros n results; simpl.
  - exists 0. now repeat split.
  - pose proof (loop_body_events net c p n results) as [Hr Ha].
    destruct (loop_body net c p n results) as [[n' results'|results'|e] evs]
      eqn:Hb; simpl in Hr, Ha;
      try (exists 1; simpl; rewrite Hr, Ha; repeat split; lia).
    assert (n' = S n) as ->
      by (eapply loop_body_next; rewrite Hb; reflexivity).
    destruct (IH (S n) results') as (j & Hj & Hr' & Ha').
    destruct (while net fuel c p (S n) results') as [st evs'].
    simpl in *. exists (S j). rewrite requests_app, announced_app.
    rewrite Hr, Ha, Hr', Ha'. repeat split; lia.
Qed.

(** X4. However a crawl ends, and however far it has got, it has
    requested the pages 1, 2, 3, ... in this order without a gap and
    without asking for any page twice, and it has announced each page it
    requested. *)
Theorem requests_in_page_order (net : network) (fuel : nat) (c p : string) :
  exists j, j <= fuel /\
    requests (parse_category net fuel c p).2
    = map (fun m => (c, m, p)) (seq 1 j) /\
    announced (parse_category net fuel c p).2
    = requests (parse_category net fuel c p).2.
Proof.
  destruct (while_requests net fuel c p 1 []) as (j & Hj & Hr & Ha).
  exists j. unfold parse_category. rewrite Hr, Ha. now repeat split.
Qed.

(** * Further properties of [run] *)

Section GatherTrace.

Variable net : network.

Lemma fetch_page_no_file (c p : string) (n : nat) :
  Forall (fun ev => touches_file ev = false) (fetch_page net c n p).2.
Proof.
  unfold fetch_page.
  destruct (net c n p) as [|status [data|]]; [repeat constructor|..];
    destruct (status =? 200)%Z; repeat constructor.
Qed.

Lemma loop_body_no_file (c p : string) (n : nat) (results : list item) :
  Forall (fun ev => touches_file ev = false) (loop_body net c p n results).2.
Proof.
  unfold loop_body. pose proof (fetch_page_no_file c p n) as H.
  destruct (fetch_page net c n p) as [data evs]. simpl in *.
  now constructor.
Qed.

(** While the crawls are under way nothing opens or writes the file. *)
Lemma gather_no_file (schedule : list nat) (tasks : list task) :
  Forall (fun ev => touches_file ev = false) (gather net tasks schedule).2.
Proof.
  revert tasks. induction schedule as [|i schedule IH]; intros tasks; simpl;
    destruct (collect tasks) as [all|]; try constructor.
  destruct (tasks !! i) as [[c p [n results| |]]|]; try apply IH.
  pose proof (loop_body_no_file c p n results) as Hb.
  destruct (loop_body net c p n results) as [[n' results'|results'|e] evs1];
    simpl in Hb; [| |exact Hb].
  - specialize (IH (<[i:=Task c p (Running n' results')]> tasks)).
    destruct (gather net _ schedule) as [g evs2]. simpl in *.
    now apply Forall_app.
  - specialize (IH (<[i:=Task c p (Returned results')]> tasks)).
    destruct (gather net _ schedule) as [g evs2]. simpl in *.
    now apply Forall_app.
Qed.

Lemma ids_lookup (tasks : list task) (i : nat) (c p : string) (st : status) :
  tasks !! i = Some (Task c p st) -> (c, p) ∈ ids tasks.
Proof.
  intros Hi. unfold ids. change (map ?f ?l) with (f <$> l).
  apply list_elem_of_lookup. exists i. now rewrite list_lookup_fmap, Hi.
Qed.

(** Every request of [gather] is the request of one of its tasks, for
    the category of the task through the proxy of the task. *)
Lemma gather_requests (schedule : list nat) (tasks : list task) :
  Forall (fun req => (req.1.1, req.2) ∈ ids tasks)
    (requests (gather net tasks schedule).2).
Proof.
  revert tasks. induction schedule as [|i schedule IH]; intros tasks; simpl;
    destruct (collect tasks) as [all|]; try constructor.
  destruct (tasks !! i) as [[c p [n results| |]]|] eqn:Hi; try apply IH.
  pose proof (loop_body_events net c p n results) as [Hr _].
  assert (Hhere : Forall (fun req => (req.1.1, req.2) ∈ ids tasks) [(c, n, p)]).
  { constructor; [|constructor]. simpl. eapply ids_lookup, Hi. }
  destruct (loop_body net c p n results) as [[n' results'|results'|e] evs1];
    simpl in Hr.
  - specialize (IH (<[i:=Task c p (Running n' results')]> tasks)).
    rewrite (ids_insert _ _ _ _ _ _ Hi) in IH.
    destruct (gather net _ schedule) as [g evs2]. simpl in *.
    rewrite requests_app, Hr. now apply Forall_app.
  - specialize (IH (<[i:=Task c p (Returned results')]> tasks)).
    rewrite (ids_insert _ _ _ _ _ _ Hi) in IH.
    destruct (gather net _ schedule) as [g evs2]. simpl in *.
    rewrite requests_app, Hr. now apply Forall_app.
  - simpl. now rewrite Hr.
Qed.

Lemma requests_write_lines (lines : list item) :
  requests (map WriteLine lines) = [].
Proof. induction lines as [|l lines IH]; [reflexivity | exact IH]. Qed.

End GatherTrace.

(** X5. Proxy binding: every request that a run sends for a category goes
    through the proxy at the position of that category in the proxy list;
    no request is sent for anything but the listed categories. *)
Theorem requests_use_paired_proxy (net : network)
    (category_ids proxies : list string) (schedule : list nat)
    (output output' : file) (out : outcome) (evs : list event) :
  run net category_ids proxies schedule output = (out, evs, output') ->
  Forall (fun req =>
            exists i, category_ids !! i = Some req.1.1 /\
                      proxies !! i = Some req.2)
    (requests evs).
Proof.
  intros Hrun. apply Forall_forall. intros [[c n] p] Hin. simpl.
  assert (Hzip : (c, p) ∈ zip category_ids proxies).
  { unfold run in Hrun.
    destruct (length proxies <? length category_ids)%nat.
    - injection Hrun as _ <- _. now apply elem_of_nil in Hin.
    - pose proof (gather_requests net schedule (make_tasks category_ids proxies))
        as Hg.
      rewrite ids_make_tasks in Hg.
      destruct (gather net (make_tasks category_ids proxies) schedule)
        as [[all|e|] evs0]; injection Hrun as _ <- _; simpl in Hg.
      + rewrite requests_app in Hin. simpl in Hin.
        rewrite requests_app, requests_write_lines, app_nil_r in Hin.
        exact (proj1 (Forall_forall _ _) Hg (c, n, p) Hin).
      + exact (proj1 (Forall_forall _ _) Hg (c, n, p) Hin).
      + exact (proj1 (Forall_forall _ _) Hg (c, n, p) Hin). }
  apply list_elem_of_lookup in Hzip as [i Hi].
  apply lookup_zip_with_Some in Hi as (c' & p' & [= -> ->] & Hc & Hp).
  eauto.
Qed.

(** The events of a run that saves: those of the crawls, then the
    writing of the file. *)
Lemma run_saved_events (net : network)
    (category_ids proxies : list string) (schedule : list nat)
    (output output' : file) (evs : list event) :
  run net category_ids proxies schedule output = (Saved, evs, output') ->
  exists crawl_evs lines,
    gather net (make_tasks category_ids proxies) schedule
    = (AllReturned lines, crawl_evs) /\
    output' = Some (concat lines) /\
    evs = crawl_evs ++ OpenWrite :: map WriteLine (concat lines) ++ [LogSaved] /\
    Forall (fun ev => touches_file ev = false) crawl_evs.
Proof.
  intros Hrun.
  destruct (run_saved_inv net _ _ _ _ _ _ Hrun) as [Hlen _].
  rewrite run_enough in Hrun by exact Hlen.
  pose proof (gather_no_file net schedule (make_tasks category_ids proxies))
    as Hfile.
  destruct (gather net (make_tasks category_ids proxies) schedule)
    as [[all|e|] evs0] eqn:Hg; try discriminate.
  injection Hrun as <- <-. exists evs0, all. now repeat split.
Qed.

(** X6. A run that saves writes the file once, after the last event of
    every crawl, and overwrites it: the events are those of the crawls,
    then the opening of the file, one write per line of the file and the
    final message; what the file held before is gone and has no part in
    the result. *)
Theorem saved_file_is_overwritten (net : network)
    (category_ids proxies : list string) (schedule : list nat)
    (output output' : file) (evs : list event) :
  run net category_ids proxies schedule output = (Saved, evs, output') ->
  exists crawl_evs lines,
    output' = Some lines /\
    evs = crawl_evs ++ OpenWrite :: map WriteLine lines ++ [LogSaved] /\
    Forall (fun ev => touches_file ev = false) crawl_evs /\
    forall other,
      run net category_ids proxies schedule other = (Saved, evs, output').
Proof.
  intros Hrun.
  destruct (run_saved_inv net _ _ _ _ _ _ Hrun) as [Hlen _].
  destruct (run_saved_events net _ _ _ _ _ _ Hrun)
    as (crawl_evs & all & Hg & -> & -> & Hfile).
  exists crawl_evs, (concat all). repeat split; [exact Hfile|].
  intros other. now rewrite run_enough, Hg by exact Hlen.
Qed.



Lemma requests_use_paired_proxy_witness :
  Forall (fun req =>
            exists i, ["C"; "A"] !! i = Some req.1.1 /\
                      ["P3"; "P1"; "P9"] !! i = Some req.2)
    (requests
       (run demo_net ["C"; "A"] ["P3"; "P1"; "P9"] [1; 0; 1; 0; 1; 0] None).1.2).
Proof.
  apply (requests_use_paired_proxy demo_net ["C"; "A"] ["P3"; "P1"; "P9"]
           [1; 0; 1; 0; 1; 0] None
           (run demo_net ["C"; "A"] ["P3"; "P1"; "P9"] [1; 0; 1; 0; 1; 0] None).2
           (run demo_net ["C"; "A"] ["P3"; "P1"; "P9"] [1; 0; 1; 0; 1; 0] None).1.1).
  reflexivity.
Defined.

Lemma saved_file_is_overwritten_witness :
  exists crawl_evs lines,
    Some [hat_item; shoe_item; shoe_item] = Some lines /\
    (run demo_net ["C"; "A"] ["P3"; "P1"; "P9"] [1; 0; 1; 0; 1; 0]
       (Some [shoe_item])).1.2
    = crawl_evs ++ OpenWrite :: map WriteLine lines ++ [LogSaved] /\
    Forall (fun ev => touches_file ev = false) crawl_evs /\
    forall other,
      run demo_net ["C"; "A"] ["P3"; "P1"; "P9"] [1; 0; 1; 0; 1; 0] other
      = (Saved,
         (run demo_net ["C"; "A"] ["P3"; "P1"; "P9"] [1; 0; 1; 0; 1; 0]
            (Some [shoe_item])).1.2,
         Some [hat_item; shoe_item; shoe_item]).
Proof.
  apply (saved_file_is_overwritten demo_net ["C"; "A"] ["P3"; "P1"; "P9"]
           [1; 0; 1; 0; 1; 0] (Some [shoe_item])).
  reflexivity.
Defined.


(** * Further properties of the normalizer *)

Section Resolution.

#[local] Abbreviation out := (ahead template resolved 0).

(** The replacement has no [$] in it: no occurrence of the template
    starts inside it. *)
Lemma contains_template_resolved (x : string) :
  contains template (resolved +:+ x) = contains template x.
Proof. reflexivity. Qed.

(** One character of the argument that the scan has copied: if what the
    scan gives starts with [u], so does what it was given, as long as the
    replacement cannot be mistaken for [u]. *)
Lemma copied_step (d : ascii) (u : string) :
  (forall s, String.prefix u (out s) = true -> String.prefix u s = true) ->
  (d = "f"%char -> forall x, String.prefix u ("ullhd.jpg" +:+ x) = false) ->
  forall s, String.prefix (String d u) (out s) = true ->
            String.prefix (String d u) s = true.
Proof.
  intros IH Hf [|c s] H.
  - discriminate.
  - cbn [ahead] in H.
    destruct (String.prefix template (String c s)) eqn:Hp.
    + unfold resolved in H.
      change ("fullhd.jpg" +:+ ?x) with (String "f" ("ullhd.jpg" +:+ x)) in H.
      cbn [String.prefix] in H.
      destruct (ascii_dec d "f") as [E|_]; [|discriminate].
      now rewrite (Hf E) in H.
    + cbn [String.prefix] in *.
      destruct (ascii_dec d c); [now apply IH | discriminate].
Qed.

Lemma copied_nil (s : string) :
  String.prefix "" (out s) = true -> String.prefix "" s = true.
Proof. now destruct s. Qed.

(** The scan never builds the rest of a template out of copied
    characters and a replacement. *)
Lemma copied_template_tail (s : string) :
  String.prefix template_tail (out s) = true ->
  String.prefix template_tail s = true.
Proof.
  revert s. unfold template_tail.
  repeat (apply copied_step; [|intros E x; first [discriminate E | reflexivity]]).
  exact copied_nil.
Qed.

Lemma prefix_template_out (c : ascii) (s : string) :
  String.prefix template (String c s) = false ->
  String.prefix template (String c (out s)) = false.
Proof.
  intros H. apply not_true_is_false. intros C.
  unfold template in *.
  change "${screen}.${format}" with (String "$" template_tail) in *.
  cbn [String.prefix] in *.
  destruct (ascii_dec "$" c); [|discriminate].
  apply copied_template_tail in C. congruence.
Qed.

(** What the scan gives holds no occurrence of the template. *)
Lemma ahead_template_free (s : string) (skip : nat) :
  contains template (ahead template resolved skip s) = false.
Proof.
  revert skip. induction s as [|c s IH]; intros skip.
  - reflexivity.
  - destruct skip as [|skip]; cbn [ahead]; [|apply IH].
    destruct (String.prefix template (String c s)) eqn:Hp.
    + rewrite contains_template_resolved. apply IH.
    + cbn [contains]. rewrite (prefix_template_out c s Hp). apply IH.
Qed.

End Resolution.

(** X8. Resolution is idempotent on every url: no photo holds the
    combined template any more, so resolving a photo again, as an image
    url, gives the photo back. *)
Theorem resolve_image_idempotent (img : json) (photo : string) :
  resolve_image img = Ok photo ->
  contains template photo = false /\
  resolve_image (JObj [("url", JStr photo)]) = Ok photo.
Proof.
  unfold resolve_image. intros H.
  destruct (getitem img "url") as [url|]; [|discriminate]. cbn [bind] in H.
  destruct url as [| | | |s| |]; try discriminate.
  cbn [call_replace] in H. injection H as <-.
  split; [apply ahead_template_free|].
  change (getitem (JObj [("url", JStr ?u)]) "url") with (Ok (JStr u)).
  cbn [bind call_replace]. f_equal. rewrite replace_template.
  apply ahead_absent, ahead_template_free.
Qed.

Lemma resolve_image_idempotent_witness :
  contains template "http://img/fullhd.jpg?as=${format}" = false /\
  resolve_image (JObj [("url", JStr "http://img/fullhd.jpg?as=${format}")])
  = Ok "http://img/fullhd.jpg?as=${format}".
Proof.
  apply (resolve_image_idempotent
           (JObj [("url", JStr "http://img/${screen}.${format}?as=${format}")])
           "http://img/fullhd.jpg?as=${format}").
  reflexivity.
Defined.

(** X9. The photos of a normalized product with a list of images are its
    image urls, each with the template replaced, one per image in the
    order of the images: every image is then a dict with a string under
    ["url"]. *)
Theorem photos_follow_images (product : json) (r : item) (entries : list json) :
  normalize product = Ok r ->
  getitem product "imageUrls" = Ok (JArr entries) ->
  exists urls,
    Forall2 (fun entry url => getitem entry "url" = Ok (JStr url)) entries urls /\
    photos r = map (fun url => replace url template resolved) urls /\
    length (photos r) = length entries.
Proof.
  intros Hn Himgs.
  apply normalize_inv in Hn
    as (fields & images & imgs & -> & _ & _ & _ & _ & Li & Hiter & Hmap & _).
  unfold getitem in Himgs. rewrite Li in Himgs. injection Himgs as ->.
  simpl in Hiter. injection Hiter as <-.
  apply map_result_Forall2 in Hmap. clear Li.
  induction Hmap as [|entry photo entries photos_ Hentry _ (urls & Hu & Hp & Hl)].
  - exists []. now repeat split.
  - unfold resolve_image in Hentry.
    destruct (getitem entry "url") as [[| | | |url| |]|] eqn:Hurl;
      try discriminate.
    cbn [bind call_replace] in Hentry. injection Hentry as <-.
    exists (url :: urls). split; [now constructor|].
    split; [now rewrite Hp | simpl; now rewrite Hl].
Qed.

Lemma photos_follow_images_witness :
  exists urls,
    Forall2 (fun entry url => getitem entry "url" = Ok (JStr url))
      [JObj [("url", JStr "http://img/${screen}.${format}")]] urls /\
    photos shoe_item = map (fun url => replace url template resolved) urls /\
    length (photos shoe_item) = 1.
Proof.
  apply (photos_follow_images shoe shoe_item
           [JObj [("url", JStr "http://img/${screen}.${format}")]]);
    reflexivity.
Defined.

(** * Reading the input files *)

Example splitlines_empty : splitlines "" = [].
Proof. reflexivity. Qed.

Example splitlines_blank_line :
  splitlines ("a" +:+ String LF (String LF ("b" +:+ String LF "")))
  = ["a"; ""; "b"].
Proof. reflexivity. Qed.

Example splitlines_mixed :
  splitlines ("a" +:+ String CR (String LF ("b" +:+ String CR ("c" +:+ String VT "d"))))
  = ["a"; "b"; "c"; "d"].
Proof. reflexivity. Qed.

Example splitlines_line_separator :
  splitlines ("a" +:+ String "226" (String "128" (String "168" "b"))) = ["a"; "b"].
Proof. reflexivity. Qed.

Example universal_newlines_mixed :
  universal_newlines ("a" +:+ String CR (String LF ("b" +:+ String CR "c")))
  = "a" +:+ String LF ("b" +:+ String LF "c").
Proof. reflexivity. Qed.

Lemma string_app_nil_r (s : string) : s +:+ "" = s.
Proof. induction s as [|c s IH]; simpl; congruence. Qed.

Lemma string_app_assoc (a b c : string) : (a +:+ b) +:+ c = a +:+ b +:+ c.
Proof. induction a as [|x a IH]; simpl; congruence. Qed.

(** Looking further than the line finds no boundary that the line does
    not have, when a line feed or the end comes behind it. *)
Lemma boundary_length_closing (c : ascii) (l x : string) :
  closing x ->
  boundary_length (String c l) = 0 ->
  boundary_length (String c (l +:+ x)) = 0.
Proof.
  intros Hx. unfold boundary_length.
  destruct (Ascii.eqb c CR); [now destruct l as [|d l]; [|destruct (Ascii.eqb d LF)]|].
  destruct (one_byte_boundary c); [discriminate|].
  destruct (Ascii.eqb c "194").
  - destruct l as [|d l]; [|trivial]. simpl.
    destruct Hx as [->|[rest ->]]; reflexivity.
  - destruct (Ascii.eqb c "226"); [|trivial].
    destruct l as [|d [|e l]]; simpl; [| |trivial].
    + destruct Hx as [->|[rest ->]]; [reflexivity|]. now destruct rest.
    + destruct Hx as [->|[rest ->]]; [reflexivity|].
      now rewrite andb_false_r.
Qed.

(** Looking less far finds no boundary either. *)
Lemma boundary_length_cut (c : ascii) (l x : string) :
  boundary_length (String c (l +:+ x)) = 0 ->
  boundary_length (String c l) = 0.
Proof.
  unfold boundary_length.
  destruct (Ascii.eqb c CR);
    [now destruct l as [|d l]; simpl; [destruct x as [|d x]; [|destruct (Ascii.eqb d LF)]|]|].
  destruct (one_byte_boundary c); [discriminate|].
  destruct (Ascii.eqb c "194").
  - now destruct l as [|d l].
  - destruct (Ascii.eqb c "226"); [|trivial].
    now destruct l as [|d [|e l]].
Qed.

(** A plain line is read through to the line feed or the end behind
    it. *)
Lemma lines_from_plain (l x line : string) :
  plain l = true ->
  closing x ->
  lines_from line 0 (l +:+ x) = lines_from (line +:+ l) 0 x.
Proof.
  revert line. induction l as [|c l IH]; intros line Hl Hx.
  - now rewrite string_app_nil_r.
  - cbn [plain] in Hl. apply andb_true_iff in Hl as [Hc Hl].
    apply Nat.eqb_eq in Hc.
    change (String c l +:+ x) with (String c (l +:+ x)).
    cbn [lines_from].
    rewrite (boundary_length_closing c l x Hx Hc).
    rewrite IH by assumption. now rewrite string_app_assoc.
Qed.

Lemma lines_from_LF (line rest : string) :
  lines_from line 0 (String LF rest) = line :: lines_from "" 0 rest.
Proof. reflexivity. Qed.

(** A plain line has no carriage return for [read] to translate. *)
Lemma universal_newlines_plain (l x : string) :
  plain l = true ->
  universal_newlines (l +:+ x) = l +:+ universal_newlines x.
Proof.
  induction l as [|c l IH]; intros Hl.
  - reflexivity.
  - cbn [plain] in Hl. apply andb_true_iff in Hl as [Hc Hl].
    apply Nat.eqb_eq in Hc.
    change (String c l +:+ x) with (String c (l +:+ x)).
    cbn [universal_newlines].
    destruct (Ascii.eqb c CR) eqn:Ecr.
    + unfold boundary_length in Hc. rewrite Ecr in Hc.
      now destruct l as [|d l]; [|destruct (Ascii.eqb d LF)].
    + now rewrite IH.
Qed.

(** The lines of a text written line by line. *)
Lemma splitlines_written (entries : list (string * string)) (last : string) :
  Forall (fun e => plain e.1 = true /\
                   (e.2 = String LF "" \/ e.2 = String CR (String LF "")))
    entries ->
  plain last = true ->
  splitlines (universal_newlines (written entries +:+ last))
  = map fst entries ++ match last with EmptyString => [] | _ => [last] end.
Proof.
  intros Hentries Hlast. unfold splitlines.
  induction Hentries as [|[l ending] entries [Hl Hending] _ IH]; simpl.
  - rewrite <- (string_app_nil_r last) at 1.
    rewrite universal_newlines_plain by exact Hlast. simpl.
    rewrite (lines_from_plain last "" "" Hlast) by now left.
    simpl. reflexivity.
  - simpl in Hl, Hending.
    rewrite !string_app_assoc, universal_newlines_plain by exact Hl.
    assert (Hun : universal_newlines (ending +:+ written entries +:+ last)
                  = String LF (universal_newlines (written entries +:+ last)))
      by now destruct Hending as [->| ->].
    rewrite Hun, lines_from_plain by (try exact Hl; right; eauto).
    rewrite lines_from_LF. simpl. now rewrite IH.
Qed.

(** X10. A file written one entry per line reads back as its entries:
    when every line is free of line breaks and ends with a line feed or
    with a carriage return and a line feed, and the text after the last
    line ending is free of line breaks too, [load_proxies] returns the
    lines in order, blank ones included, followed by that last text when
    it is not empty; the category file is read in the same way. *)
Theorem input_files_read_back (self : GoldAppleParser) (fs : filesystem)
    (entries : list (string * string)) (last : string) :
  Forall (fun e => plain e.1 = true /\
                   (e.2 = String LF "" \/ e.2 = String CR (String LF "")))
    entries ->
  plain last = true ->
  let lines :=
    map fst entries ++ match last with EmptyString => [] | _ => [last] end in
  (fs (proxies_file self) = Some (written entries +:+ last) ->
   load_proxies self fs = Some lines) /\
  (fs (category_ids_file self) = Some (written entries +:+ last) ->
   read_category_ids self fs = Some lines).
Proof.
  intros Hentries Hlast lines.
  split; intros Hfs;
    unfold load_proxies, read_category_ids, read_lines; rewrite Hfs;
    now rewrite splitlines_written.
Qed.

(** A proxy file with Windows line endings, a blank line and no line
    ending after the last proxy. *)
Lemma input_files_read_back_witness :
  let lines := ["http://p1:8080"; ""; "http://p2:8080"] in
  let text :=
    written [("http://p1:8080", String CR (String LF ""));
             ("", String LF "")] +:+ "http://p2:8080" in
  let self := init "categoryID.txt" "products.jsonl" "proxy.txt" None in
  let fs := fun path => if String.eqb path "proxy.txt" then Some text else None in
  (fs (proxies_file self) = Some text -> load_proxies self fs = Some lines) /\
  (fs (category_ids_file self) = Some text ->
   read_category_ids self fs = Some lines).
Proof.
  apply (input_files_read_back
           (init "categoryID.txt" "products.jsonl" "proxy.txt" None)
           (fun path => if String.eqb path "proxy.txt"
                        then Some (written [("http://p1:8080", String CR (String LF ""));
                                            ("", String LF "")] +:+ "http://p2:8080")
                        else None)
           [("http://p1:8080", String CR (String LF "")); ("", String LF "")]
           "http://p2:8080").
  - constructor; [split; [reflexivity | right; reflexivity]|].
    constructor; [split; [reflexivity | left; reflexivity]|].
    constructor.
  - reflexivity.
Defined.

Section PlainLines.

(** Lines and texts side by side: no boundary starts in [line] when [s]
    comes behind it. *)
Lemma plain_before_cut (line s : string) :
  plain_before line s = true -> plain line = true.
Proof.
  induction line as [|c line IH]; [reflexivity|].
  cbn [plain_before plain]. intros H.
  apply andb_true_iff in H as [Hc H]. apply Nat.eqb_eq in Hc.
  change (String c line +:+ s) with (String c (line +:+ s)) in Hc.
  apply boundary_length_cut in Hc. rewrite Hc. now apply IH.
Qed.

Lemma plain_before_snoc (line : string) (c : ascii) (rest : string) :
  plain_before line (String c rest) = true ->
  boundary_length (String c rest) = 0 ->
  plain_before (line +:+ String c "") rest = true.
Proof.
  intros Hline Hc. induction line as [|d line IH].
  - cbn [String.append plain_before]. now rewrite Hc.
  - cbn [plain_before] in Hline. apply andb_true_iff in Hline as [Hd Hline].
    change (String d line +:+ String c "") with (String d (line +:+ String c "")).
    cbn [plain_before].
    change (String d (line +:+ String c "") +:+ rest)
      with (String d ((line +:+ String c "") +:+ rest)).
    rewrite string_app_assoc. simpl (String c "" +:+ rest).
    change (String d line +:+ String c rest)
      with (String d (line +:+ String c rest)) in Hd.
    rewrite Hd. now apply IH.
Qed.

(** Whatever the text, every line that the scan gives is plain. *)
Lemma lines_from_all_plain (s line : string) (skip : nat) :
  plain_before line s = true ->
  (skip <> 0 -> line = "") ->
  Forall (fun l => plain l = true) (lines_from line skip s).
Proof.
  revert line skip. induction s as [|c rest IH]; intros line skip Hline Hskip.
  - simpl. destruct line as [|d line]; [constructor|].
    constructor; [|constructor]. now apply plain_before_cut in Hline.
  - cbn [lines_from]. destruct skip as [|k].
    + destruct (boundary_length (String c rest)) as [|k] eqn:Hc.
      * apply IH; [now apply plain_before_snoc | congruence].
      * constructor; [now apply plain_before_cut in Hline|].
        now apply IH.
    + rewrite Hskip by discriminate. now apply IH.
Qed.

(** A plain line holds no character that is a boundary by itself. *)
Lemma plain_no_break (l : string) (c : ascii) :
  plain l = true ->
  c = LF \/ c = CR ->
  contains (String c "") l = false.
Proof.
  intros Hl Hc. induction l as [|d l IH]; [reflexivity|].
  cbn [plain] in Hl. apply andb_true_iff in Hl as [Hd Hl].
  apply Nat.eqb_eq in Hd. cbn [contains String.prefix].
  rewrite (IH Hl), orb_false_r.
  destruct (ascii_dec c d) as [<-|_]; [|reflexivity]. exfalso.
  destruct Hc as [-> | ->]; [discriminate|].
  now destruct l as [|e l]; [|simpl in Hd; destruct (Ascii.eqb e LF)].
Qed.

End PlainLines.

(** X11. No line that [load_proxies] returns, and no category id that
    [run] reads, holds a line break: whatever the text of the file and
    whichever line endings it uses, the entries are free of line feeds,
    carriage returns and every other line boundary. *)
Theorem input_lines_have_no_breaks (self : GoldAppleParser) (fs : filesystem)
    (lines : list string) :
  load_proxies self fs = Some lines \/ read_category_ids self fs = Some lines ->
  Forall (fun l => plain l = true /\
                   contains (String LF "") l = false /\
                   contains (String CR "") l = false) lines.
Proof.
  assert (Hall : forall path, read_lines fs path = Some lines ->
            Forall (fun l => plain l = true) lines).
  { unfold read_lines. intros path H.
    destruct (fs path) as [text|]; [|discriminate]. injection H as <-.
    now apply lines_from_all_plain. }
  intros H.
  assert (Hplain : Forall (fun l => plain l = true) lines)
    by (destruct H as [H|H]; eapply Hall; exact H).
  eapply Forall_impl; [exact Hplain|]. intros l Hl. simpl.
  split; [exact Hl|]. split; apply plain_no_break; auto.
Qed.

Lemma input_lines_have_no_breaks_witness :
  Forall (fun l => plain l = true /\
                   contains (String LF "") l = false /\
                   contains (String CR "") l = false)
    ["http://p1:8080"; ""; "http://p2:8080"].
Proof.
  apply (input_lines_have_no_breaks
           (init "categoryID.txt" "products.jsonl" "proxy.txt" None)
           (fun path => if String.eqb path "proxy.txt"
                        then Some (written [("http://p1:8080", String CR (String LF ""));
                                            ("", String CR "")] +:+ "http://p2:8080")
                        else None)).
  left. reflexivity.
Defined.

(** * Writing the records *)

Section Printable.

Variable float_repr : float -> list repr_char.

Lemma printable_app (a b : string) :
  printable (a +:+ b) = printable a && printable b.
Proof.
  induction a as [|c a IH]; simpl; [reflexivity|].
  now rewrite IH, andb_assoc.
Qed.

Lemma printable_hex_digit (n : nat) :
  (32 <=? nat_of_ascii (hex_digit n))%nat = true.
Proof. do 16 (destruct n as [|n]; [reflexivity|]). reflexivity. Qed.

Lemma printable_escape (c : ascii) : printable (escape c) = true.
Proof.
  unfold escape.
  repeat match goal with
         | |- context [if Ascii.eqb c ?k then _ else _] =>
             destruct (Ascii.eqb c k); [reflexivity|]
         end.
  destruct (nat_of_ascii c <? 32)%nat eqn:E.
  - cbn [printable String.append]. rewrite !printable_hex_digit. reflexivity.
  - cbn [printable]. apply Nat.ltb_ge in E.
    apply Nat.leb_le in E. now rewrite E.
Qed.

Lemma printable_encode_basestring (s : string) :
  printable (encode_basestring s) = true.
Proof.
  unfold encode_basestring. cbn [printable]. rewrite printable_app.
  replace (printable (escape_all s)) with true; [reflexivity|].
  induction s as [|c s IH]; [reflexivity|]. cbn [escape_all].
  now rewrite printable_app, printable_escape, <- IH.
Qed.

Lemma printable_join (sep : string) (l : list string) :
  printable sep = true ->
  Forall (fun s => printable s = true) l ->
  printable (join sep l) = true.
Proof.
  intros Hsep H. induction H as [|s l Hs _ IH]; [reflexivity|].
  destruct l as [|s' l]; [exact Hs|].
  change (join sep (s :: s' :: l)) with (s +:+ sep +:+ join sep (s' :: l)).
  now rewrite !printable_app, Hs, Hsep, IH.
Qed.

Lemma printable_uint (d : Decimal.uint) :
  printable (NilEmpty.string_of_uint d) = true.
Proof. induction d; simpl; auto. Qed.

Lemma printable_int (n : Z) :
  printable (NilZero.string_of_int (Z.to_int n)) = true.
Proof.
  unfold NilZero.string_of_int, NilZero.string_of_uint.
  destruct (Z.to_int n) as [d|d]; destruct d; try reflexivity;
    cbn [printable]; rewrite ?andb_true_l;
    apply (printable_uint (_ _)).
Qed.

Lemma printable_repr (rs : list repr_char) :
  printable (string_of_repr rs) = true.
Proof.
  induction rs as [|r rs IH]; [reflexivity|]. simpl. rewrite IH.
  now destruct r.
Qed.

Lemma printable_floatstr (x : float) : printable (floatstr float_repr x) = true.
Proof.
  unfold floatstr.
  destruct (negb (PrimFloat.eqb x x)); [reflexivity|].
  destruct (PrimFloat.eqb x infinity); [reflexivity|].
  destruct (PrimFloat.eqb x neg_infinity); [reflexivity|].
  apply printable_repr.
Qed.

(** [json.dumps] writes no control character, whatever the value. *)
Lemma printable_dumps (v : json) : printable (dumps float_repr v) = true.
Proof.
  induction v as [|b|n|x|s|items IH|fields IH] using json_nested_ind.
  - reflexivity.
  - now destruct b.
  - apply printable_int.
  - apply printable_floatstr.
  - apply printable_encode_basestring.
  - cbn [dumps]. rewrite !printable_app, printable_join; [reflexivity..|].
    induction IH; simpl; constructor; auto.
  - cbn [dumps]. rewrite !printable_app, printable_join; [reflexivity..|].
    induction IH as [|[k v] fields Hv _ IHf]; [constructor|].
    cbn [map]. constructor; [|exact IHf]. cbn [fst snd] in *.
    now rewrite !printable_app, printable_encode_basestring, Hv.
Qed.

Lemma count_char_app (c : ascii) (a b : string) :
  count_char c (a +:+ b) = count_char c a + count_char c b.
Proof. induction a as [|d a IH]; simpl; [reflexivity|]. rewrite IH. lia. Qed.

Lemma count_char_printable (c : ascii) (s : string) :
  printable s = true -> nat_of_ascii c < 32 -> count_char c s = 0.
Proof.
  intros Hs Hc. induction s as [|d s IH]; [reflexivity|].
  cbn [printable] in Hs. apply andb_true_iff in Hs as [Hd Hs].
  apply Nat.leb_le in Hd. cbn [count_char]. rewrite (IH Hs).
  destruct (Ascii.eqb_spec d c) as [->|_]; lia.
Qed.

End Printable.

(** A written line has one line feed, its last character, and no
    carriage return. *)
Lemma line_of_breaks (float_repr : float -> list repr_char) (it : item) :
  count_char LF (line_of float_repr it) = 1 /\
  count_char CR (line_of float_repr it) = 0.
Proof.
  unfold line_of. rewrite !count_char_app.
  rewrite (count_char_printable LF), (count_char_printable CR);
    first [apply printable_dumps | vm_compute; lia | now split].
Qed.

(** The text that is written has a line feed per record. *)
Lemma text_of_line_feeds (float_repr : float -> list repr_char)
    (lines : list item) :
  count_char LF (text_of float_repr lines) = length lines.
Proof.
  induction lines as [|it lines IH]; [reflexivity|]. cbn [text_of].
  destruct (line_of_breaks float_repr it) as [Hlf _].
  rewrite count_char_app, Hlf, IH. reflexivity.
Qed.

(** X12. The output is one record per line: what [json.dumps] writes for
    an item holds no control character, so no line feed and no carriage
    return, whatever strings the item carries, and the text of the file
    has exactly as many line feeds as the file has records, each at the
    end of a record. *)
Theorem records_are_single_lines (float_repr : float -> list repr_char)
    (lines : list item) :
  Forall (fun it =>
            printable (dumps float_repr (dict_of_item it)) = true /\
            count_char LF (line_of float_repr it) = 1) lines /\
  count_char LF (text_of float_repr lines) = length lines /\
  count_char CR (text_of float_repr lines) = 0.
Proof.
  split; [|split].
  - apply Forall_forall. intros it _.
    split; [apply printable_dumps | apply line_of_breaks].
  - apply text_of_line_feeds.
  - induction lines as [|it lines IH]; [reflexivity|]. cbn [text_of].
    destruct (line_of_breaks float_repr it) as [_ Hcr].
    now rewrite count_char_app, Hcr, IH.
Qed.

(** * The program as a whole *)







(** * Failures and schedules *)

(** An exception that [gather] propagates is the exception of one of its
    tasks. *)
Lemma gather_failure (net : network) (schedule : list nat) (tasks : list task)
    (e : exn) (evs : list event) :
  Forall (reachable net) tasks ->
  gather net tasks schedule = (Propagated e, evs) ->
  exists i c p k evs',
    ids tasks !! i = Some (c, p) /\
    parse_category net k c p = (Raised e, evs').
Proof.
  revert tasks evs.
  induction schedule as [|i schedule IH]; intros tasks evs Hreach H; simpl in H;
    destruct (collect tasks) as [all|] eqn:Hc; try discriminate.
  destruct (tasks !! i) as [[c p [n results| |]]|] eqn:Hi;
    try (eapply IH; eassumption).
  destruct (loop_body net c p n results) as [st evs1] eqn:Hbody.
  assert (Hstep : reachable net (Task c p st)).
  { eapply reachable_step; [|exact Hbody].
    eapply Forall_lookup_1; eassumption. }
  assert (Hid : ids tasks !! i = Some (c, p)).
  { unfold ids. change (map ?f ?l) with (f <$> l).
    now rewrite list_lookup_fmap, Hi. }
  destruct st as [n' results'|results'|e'].
  - destruct (gather net (<[i:=Task c p (Running n' results')]> tasks) schedule)
      as [g evs2] eqn:Hg.
    injection H as -> _.
    apply IH in Hg; [|now apply Forall_insert].
    now rewrite (ids_insert _ _ _ _ _ _ Hi) in Hg.
  - destruct (gather net (<[i:=Task c p (Returned results')]> tasks) schedule)
      as [g evs2] eqn:Hg.
    injection H as -> _.
    apply IH in Hg; [|now apply Forall_insert].
    now rewrite (ids_insert _ _ _ _ _ _ Hi) in Hg.
  - injection H as <- _. destruct Hstep as (k & evs' & Hk). simpl in Hk.
    eauto 8.
Qed.

(** The crawl behind a run that fails. *)
Lemma run_failed_inv (net : network)
    (category_ids proxies : list string) (schedule : list nat)
    (output output' : file) (e : exn) (evs : list event) :
  run net category_ids proxies schedule output = (Failed e, evs, output') ->
  exists i cp k evs',
    zip category_ids proxies !! i = Some cp /\
    parse_category net k cp.1 cp.2 = (Raised e, evs').
Proof.
  unfold run. intros H.
  destruct (length proxies <? length category_ids)%nat; [discriminate|].
  destruct (gather net (make_tasks category_ids proxies) schedule)
    as [[all|e'|] evs0] eqn:Hg; try discriminate.
  injection H as <- _ _.
  apply gather_failure in Hg; [|apply reachable_make_tasks].
  destruct Hg as (i & c & p & k & evs' & Hi & Hk).
  rewrite ids_make_tasks in Hi. exists i, (c, p), k, evs'. now split.
Qed.



Lemma crawl_events_filtered (evs : list event) :
  Forall (fun ev => touches_file ev = false) evs ->
  filter (fun ev => touches_file ev = true) evs = [].
Proof.
  induction 1 as [|ev evs Hev _ IH]; [reflexivity|].
  rewrite filter_cons, IH. destruct (decide (touches_file ev = true)); congruence.
Qed.

(** X16. The order in which the crawls proceed cannot change what is
    saved: when [run] saves under one schedule, under any other schedule
    it does not fail, and if it saves there too, the file and what is
    written to it are the same. *)
Theorem saved_under_every_schedule (net : network)
    (category_ids proxies : list string) (schedule schedule' : list nat)
    (output output' output'' : file) (out : outcome) (evs evs' : list event) :
  run net category_ids proxies schedule output = (Saved, evs, output') ->
  run net category_ids proxies schedule' output = (out, evs', output'') ->
  (forall e, out <> Failed e) /\
  (out = Saved ->
   output'' = output' /\
   filter (fun ev => touches_file ev = true) evs'
   = filter (fun ev => touches_file ev = true) evs).
Proof.
  intros Hs Hs'.
  destruct (run_saved_inv net _ _ _ _ _ _ Hs) as (Hlen & all & -> & Hall).
  split.
  - intros e ->.
    destruct (run_failed_inv net _ _ _ _ _ _ _ Hs')
      as (i & cp & k & evs0 & Hz & Hk).
    destruct (Forall2_lookup_l _ _ _ _ _ Hall Hz) as (r & _ & k' & evs1 & Hret).
    exact (returned_not_raised net _ _ _ _ _ _ _ _ Hret Hk).
  - intros ->.
    destruct (run_saved_inv net _ _ _ _ _ _ Hs') as (_ & all' & -> & Hall').
    assert (Heq : all' = all).
    { clear Hs Hs'. revert all' Hall'.
      induction Hall as [|cp r cps rs (k & e0 & Hk) _ IH]; intros all' Hall';
        inversion Hall' as [|cp' r' cps' rs' (k' & e1 & Hk') Hrest]; subst;
        [reflexivity|].
      destruct (returned_unique net _ _ _ _ _ _ _ _ Hk Hk') as [-> _].
      f_equal. now apply IH. }
    subst all'. split; [reflexivity|].
    destruct (run_saved_events net _ _ _ _ _ _ Hs)
      as (c1 & l1 & _ & [= E1] & -> & Hc1).
    destruct (run_saved_events net _ _ _ _ _ _ Hs')
      as (c2 & l2 & _ & [= E2] & -> & Hc2).
    rewrite <- E1, <- E2.
    rewrite !filter_app.
    rewrite (crawl_events_filtered c1 Hc1), (crawl_events_filtered c2 Hc2).
    reflexivity.
Qed.

Lemma saved_under_every_schedule_witness :
  (forall e, Saved <> Failed e) /\
  (Saved = Saved ->
   Some [hat_item; shoe_item; shoe_item] = Some [hat_item; shoe_item; shoe_item] /\
   filter (fun ev => touches_file ev = true)
     (run demo_net ["C"; "A"] ["P3"; "P1"] [0; 0; 0; 1; 1] None).1.2
   = filter (fun ev => touches_file ev = true)
       (run demo_net ["C"; "A"] ["P3"; "P1"] [1; 0; 1; 0; 1; 0] None).1.2).
Proof.
  apply (saved_under_every_schedule demo_net ["C"; "A"] ["P3"; "P1"]
           [1; 0; 1; 0; 1; 0] [0; 0; 0; 1; 1] None
           (Some [hat_item; shoe_item; shoe_item])
           (Some [hat_item; shoe_item; shoe_item]) Saved
           (run demo_net ["C"; "A"] ["P3"; "P1"] [1; 0; 1; 0; 1; 0] None).1.2
           (run demo_net ["C"; "A"] ["P3"; "P1"] [0; 0; 0; 1; 1] None).1.2);
    reflexivity.
Defined.
